(** * clubsandwich.xp_loader: the REXPaint [.xp] decoder

    A shallow embedding of [src/clubsandwich/xp_loader.py] and the
    properties of the decoder stated in the specification.

    Python values are modelled as follows.
    - [bytes] objects are [list byte]; a slice [s[a:b]] is [slice s a b]
      and [s[::-1]] is [rev s].
    - Python integers are unbounded, so they are [Z].
    - The dictionaries returned by the parser have a fixed set of keys and
      become records ([Cell], [Layer], [Document]).
    - The only exception the decoder can raise is [ValueError], from
      [int(b'', 16)]; a computation that may raise has type [result A]. *)

From Stdlib Require Import ZArith List Lia Bool.
From Stdlib Require Import Strings.Byte.
Import ListNotations.

Local Open Scope Z_scope.

(** ** Exceptions *)

Inductive exn : Type := ValueError.

Inductive result (A : Type) : Type :=
| OK (a : A)
| Raise (e : exn).

Arguments OK {A} a.
Arguments Raise {A} e.

Definition bind {A B : Type} (m : result A) (k : A -> result B) : result B :=
  match m with
  | OK a => k a
  | Raise e => Raise e
  end.

Notation "x <- m ;; k" := (bind m (fun x => k))
  (at level 61, m at next level, right associativity).

(** ** Byte strings *)

Definition bytes : Type := list byte.

Definition byte_val (b : byte) : Z := Z.of_N (Byte.to_N b).

(** Python's adjustment of one slice bound for a sequence of length [len]:
    a negative bound counts from the end, and the result is clamped to
    [0 .. len]. *)
Definition clamp_index (len i : Z) : Z :=
  if i <? 0 then Z.max 0 (i + len) else Z.min i len.

(** [s[lo:hi]].  Slicing never raises: bounds past the end are clamped. *)
Definition slice {A : Type} (s : list A) (lo hi : Z) : list A :=
  let len := Z.of_nat (length s) in
  let lo' := clamp_index len lo in
  let hi' := clamp_index len hi in
  firstn (Z.to_nat (hi' - lo')) (skipn (Z.to_nat lo') s).

(** ** Module constants (lines 64-73) *)

Definition version_bytes : Z := 4.
Definition layer_count_bytes : Z := 4.

Definition layer_width_bytes : Z := 4.
Definition layer_height_bytes : Z := 4.
Definition layer_keycode_bytes : Z := 4.
Definition layer_fore_rgb_bytes : Z := 3.
Definition layer_back_rgb_bytes : Z := 3.
Definition layer_cell_bytes : Z :=
  layer_keycode_bytes + layer_fore_rgb_bytes + layer_back_rgb_bytes.

(** ** [_bytes_to_int] (lines 102-103)

    [int(base64.b16encode(bts), 16)]: the bytes are written as upper-case
    hexadecimal digits, two per byte, and the digit string is parsed in
    base 16. *)

(** The character [b"0123456789ABCDEF"[n]]. *)
Definition hex_digit (n : N) : byte :=
  match n with
  | 0%N => x30 | 1%N => x31 | 2%N => x32 | 3%N => x33
  | 4%N => x34 | 5%N => x35 | 6%N => x36 | 7%N => x37
  | 8%N => x38 | 9%N => x39 | 10%N => x41 | 11%N => x42
  | 12%N => x43 | 13%N => x44 | 14%N => x45 | _ => x46
  end.

Definition b16encode (bts : bytes) : bytes :=
  flat_map (fun b => [hex_digit (Byte.to_N b / 16); hex_digit (Byte.to_N b mod 16)]) bts.

(** The value of a base-16 digit character, for [0-9], [A-F] and [a-f]. *)
Definition digit_of_byte (c : byte) : option Z :=
  let n := byte_val c in
  if (48 <=? n) && (n <=? 57) then Some (n - 48)
  else if (65 <=? n) && (n <=? 70) then Some (n - 55)
  else if (97 <=? n) && (n <=? 102) then Some (n - 87)
  else None.

Fixpoint int_digits (s : bytes) (acc : Z) : result Z :=
  match s with
  | [] => OK acc
  | c :: s' =>
      match digit_of_byte c with
      | Some d => int_digits s' (16 * acc + d)
      | None => Raise ValueError
      end
  end.

(** [int(s, 16)] on a string of digit characters.  The empty string is not
    a literal: [int(b'', 16)] raises [ValueError].  (Signs, blanks, [0x]
    prefixes and underscores, which [int] also accepts, never occur in the
    output of [b16encode] and raise here.) *)
Definition int_16 (s : bytes) : result Z :=
  match s with
  | [] => Raise ValueError
  | _ :: _ => int_digits s 0
  end.

Definition _bytes_to_int (bts : bytes) : result Z :=
  int_16 (b16encode bts).

(** The three-line idiom applied to every multi-byte field:
    [if reverse_endian: field = field[::-1]]. *)
Definition reverse_if (reverse_endian : bool) (field : bytes) : bytes :=
  if reverse_endian then rev field else field.

(** ** The returned structures

    Each dictionary of the module docstring is a record; the record of a
    dictionary lives in a module of its own, so that the keys keep their
    names. *)

Module Cell.
Record t : Type := mk {
  keycode : Z;
  fore_r : Z; fore_g : Z; fore_b : Z;
  back_r : Z; back_g : Z; back_b : Z
}.
End Cell.

Module Layer.
Record t : Type := mk {
  width : Z;
  height : Z;
  cells : list (list Cell.t)
}.
End Layer.

Module Document.
Record t : Type := mk {
  version : Z;
  layer_count : Z;
  width : Z;
  height : Z;
  layer_data : list Layer.t
}.
End Document.

(** ** [_parse_individual_cell] (lines 212-248) *)

Definition _parse_individual_cell (cell_string : bytes) (reverse_endian : bool)
  : result Cell.t :=
  let offset := 0 in
  let keycode := slice cell_string offset (offset + layer_keycode_bytes) in
  let keycode := reverse_if reverse_endian keycode in
  keycode <- _bytes_to_int keycode ;;
  let offset := offset + layer_keycode_bytes in
  fore_r <- _bytes_to_int (slice cell_string offset (offset + 1)) ;;
  let offset := offset + 1 in
  fore_g <- _bytes_to_int (slice cell_string offset (offset + 1)) ;;
  let offset := offset + 1 in
  fore_b <- _bytes_to_int (slice cell_string offset (offset + 1)) ;;
  let offset := offset + 1 in
  back_r <- _bytes_to_int (slice cell_string offset (offset + 1)) ;;
  let offset := offset + 1 in
  back_g <- _bytes_to_int (slice cell_string offset (offset + 1)) ;;
  let offset := offset + 1 in
  back_b <- _bytes_to_int (slice cell_string offset (offset + 1)) ;;
  OK (Cell.mk keycode fore_r fore_g fore_b back_r back_g back_b).

(** ** [_parse_layer] (lines 174-209)

    The two [for] loops thread the list under construction and the offset;
    [range(n)] runs [Z.to_nat n] times (not at all for [n <= 0]). *)

(** [for y in range(height)], lines 197-201. *)
Fixpoint row_loop (n : nat) (layer_string : bytes) (reverse_endian : bool)
    (row : list Cell.t) (offset : Z) : result (list Cell.t * Z) :=
  match n with
  | O => OK (row, offset)
  | S n' =>
      let cell_data_raw := slice layer_string offset (offset + layer_cell_bytes) in
      cell_data <- _parse_individual_cell cell_data_raw reverse_endian ;;
      row_loop n' layer_string reverse_endian (row ++ [cell_data])
        (offset + layer_cell_bytes)
  end.

(** [for x in range(width)], lines 194-203. *)
Fixpoint cells_loop (n : nat) (height : Z) (layer_string : bytes)
    (reverse_endian : bool) (cells : list (list Cell.t)) (offset : Z)
  : result (list (list Cell.t) * Z) :=
  match n with
  | O => OK (cells, offset)
  | S n' =>
      r <- row_loop (Z.to_nat height) layer_string reverse_endian [] offset ;;
      cells_loop n' height layer_string reverse_endian (cells ++ [fst r]) (snd r)
  end.

Definition _parse_layer (layer_string : bytes) (reverse_endian : bool)
  : result Layer.t :=
  let offset := 0 in
  let width := slice layer_string offset (offset + layer_width_bytes) in
  let offset := offset + layer_width_bytes in
  let height := slice layer_string offset (offset + layer_height_bytes) in
  let offset := offset + layer_height_bytes in
  let width := reverse_if reverse_endian width in
  let height := reverse_if reverse_endian height in
  width <- _bytes_to_int width ;;
  height <- _bytes_to_int height ;;
  r <- cells_loop (Z.to_nat width) height layer_string reverse_endian [] offset ;;
  OK (Layer.mk width height (fst r)).

(** ** [load_xp_string] (lines 106-171) *)

(** The variables the layer loop reads and updates. *)
Module Framer.
Record state : Type := mk {
  offset : Z;
  current_largest_width : Z;
  current_largest_height : Z;
  layers : list Layer.t
}.
End Framer.

(** One pass through the body of [for layer in range(layer_count)],
    lines 139-163. *)
Definition layer_iteration (file_string : bytes) (reverse_endian : bool)
    (st : Framer.state) : result Framer.state :=
  let offset := Framer.offset st in
  let this_layer_width := slice file_string offset (offset + layer_width_bytes) in
  let this_layer_height :=
    slice file_string (offset + layer_width_bytes)
      (offset + layer_width_bytes + layer_height_bytes) in
  let this_layer_width := reverse_if reverse_endian this_layer_width in
  let this_layer_height := reverse_if reverse_endian this_layer_height in
  this_layer_width <- _bytes_to_int this_layer_width ;;
  this_layer_height <- _bytes_to_int this_layer_height ;;
  let current_largest_width :=
    Z.max (Framer.current_largest_width st) this_layer_width in
  let current_largest_height :=
    Z.max (Framer.current_largest_height st) this_layer_height in
  let layer_data_size :=
    layer_width_bytes + layer_height_bytes
    + (layer_cell_bytes * this_layer_width * this_layer_height) in
  layer_data <-
    _parse_layer (slice file_string offset (offset + layer_data_size))
      reverse_endian ;;
  OK (Framer.mk (offset + layer_data_size) current_largest_width
        current_largest_height (Framer.layers st ++ [layer_data])).

Fixpoint layer_loop (n : nat) (file_string : bytes) (reverse_endian : bool)
    (st : Framer.state) : result Framer.state :=
  match n with
  | O => OK st
  | S n' =>
      st' <- layer_iteration file_string reverse_endian st ;;
      layer_loop n' file_string reverse_endian st'
  end.

(** Lines 118-131: the two header fields and the offset after them. *)
Definition load_xp_header (file_string : bytes) (reverse_endian : bool)
  : result (Z * Z * Z) :=
  let offset := 0 in
  let version := slice file_string offset (offset + version_bytes) in
  let offset := offset + version_bytes in
  let layer_count := slice file_string offset (offset + layer_count_bytes) in
  let offset := offset + layer_count_bytes in
  let version := reverse_if reverse_endian version in
  let layer_count := reverse_if reverse_endian layer_count in
  version <- _bytes_to_int version ;;
  layer_count <- _bytes_to_int layer_count ;;
  OK (version, layer_count, offset).

(** Lines 133-136: the loop variables before the first layer. *)
Definition initial_state (offset : Z) : Framer.state := Framer.mk offset 0 0 [].

Definition load_xp_string (file_string : bytes) (reverse_endian : bool)
  : result Document.t :=
  hdr <- load_xp_header file_string reverse_endian ;;
  let '(version, layer_count, offset) := hdr in
  st <- layer_loop (Z.to_nat layer_count) file_string reverse_endian
          (initial_state offset) ;;
  OK (Document.mk version layer_count
        (Framer.current_largest_width st)
        (Framer.current_largest_height st)
        (Framer.layers st)).

(** ** Reference interpretations of a byte string

    [be_value] and [le_value] are the usual positional readings; [be_sum]
    and [le_sum] spell the same numbers out as the sums of the
    specification. *)

Definition be_value (b : bytes) : Z :=
  fold_left (fun acc x => acc * 256 + byte_val x) b 0.

Definition le_value (b : bytes) : Z :=
  fold_right (fun x acc => byte_val x + 256 * acc) 0 b.

Definition byte_at (b : bytes) (i : nat) : Z := byte_val (nth i b x00).

Definition sum_over (n : nat) (f : nat -> Z) : Z :=
  fold_right Z.add 0 (map f (seq 0 n)).

(** [sum over i in [0, n) of b[i] * 256^(n-1-i)]. *)
Definition be_sum (b : bytes) : Z :=
  let n := length b in
  sum_over n (fun i => byte_at b i * 256 ^ Z.of_nat (n - 1 - i)).

(** [sum over i in [0, n) of b[i] * 256^i]. *)
Definition le_sum (b : bytes) : Z :=
  sum_over (length b) (fun i => byte_at b i * 256 ^ Z.of_nat i).

(** The number a 4-byte field stands for under the byte-order flag:
    little-endian when [reverse_endian] is set, big-endian otherwise. *)
Definition field_value (reverse_endian : bool) (field : bytes) : Z :=
  if reverse_endian then le_value field else be_value field.

(** [max(l)], and 0 for the empty list. *)
Definition maximum (l : list Z) : Z :=
  match l with
  | [] => 0
  | x :: l' => fold_left Z.max l' x
  end.

(** ** Predicates on buffers and grids *)

Definition buffer_length (s : bytes) : Z := Z.of_nat (length s).

(** The number of bytes of a layer record: the two 4-byte dimensions and
    one cell record per grid position. *)
Definition layer_record_size (w h : Z) : Z :=
  layer_width_bytes + layer_height_bytes + layer_cell_bytes * w * h.

(** The grid has [width] columns of [height] cells each. *)
Definition grid_shape (L : Layer.t) : Prop :=
  Z.of_nat (length (Layer.cells L)) = Layer.width L
  /\ Forall (fun column => Z.of_nat (length column) = Layer.height L)
       (Layer.cells L).

(** The decoder gets as far as iteration [k] (counted from 0) of the layer
    loop, and enters it with the loop variables [st]. *)
Definition reaches_layer (file_string : bytes) (reverse_endian : bool)
    (k : nat) (st : Framer.state) : Prop :=
  exists version layer_count offset,
    load_xp_header file_string reverse_endian
      = OK (version, layer_count, offset)
    /\ (k < Z.to_nat layer_count)%nat
    /\ layer_loop k file_string reverse_endian (initial_state offset) = OK st.

(** The buffer stops where the decoder finds nothing at all to read for a
    field (at most 4 bytes in all, or at most 4 bytes of a layer's header),
    or before the end of the record of a layer whose [width * height], as
    read from the bytes that are there, is not 0. *)
Definition ends_in_required_data (file_string : bytes) (reverse_endian : bool)
  : Prop :=
  buffer_length file_string <= 4
  \/ exists k st,
      reaches_layer file_string reverse_endian k st
      /\ let o := Framer.offset st in
         let w := field_value reverse_endian (slice file_string o (o + 4)) in
         let h :=
           field_value reverse_endian (slice file_string (o + 4) (o + 8)) in
         buffer_length file_string <= o + 4
         \/ (w * h <> 0
             /\ buffer_length file_string < o + layer_record_size w h).

(** The buffer holds every byte the decoder asks for: decoding succeeds and
    the cursor ends inside the buffer. *)
Definition complete_encoding (file_string : bytes) (reverse_endian : bool)
  : Prop :=
  exists version layer_count offset st,
    load_xp_header file_string reverse_endian
      = OK (version, layer_count, offset)
    /\ layer_loop (Z.to_nat layer_count) file_string reverse_endian
         (initial_state offset) = OK st
    /\ Framer.offset st <= buffer_length file_string.

(** ** The transparent background key (lines 80-82) *)

Definition transparent_cell_back_r : Z := 255.
Definition transparent_cell_back_g : Z := 0.
Definition transparent_cell_back_b : Z := 255.

(** ** Reference readings of records

    What a cell record and a layer record stand for, read straight off the
    byte positions; the decoder is compared with them below. *)

(** Bytes 0-3 are the keycode, bytes 4-6 the foreground and bytes 7-9 the
    background colour. *)
Definition cell_of_record (reverse_endian : bool) (cs : bytes) : Cell.t :=
  Cell.mk (field_value reverse_endian (slice cs 0 4))
    (byte_at cs 4) (byte_at cs 5) (byte_at cs 6)
    (byte_at cs 7) (byte_at cs 8) (byte_at cs 9).

(** The position in a layer record of the cell record for [(x, y)], in a
    grid of height [h]. *)
Definition cell_position (h : Z) (x y : nat) : Z :=
  8 + 10 * (Z.of_nat x * h + Z.of_nat y).

(** The grid of [w] columns of [h] cells read from a layer record. *)
Definition grid_of_record (reverse_endian : bool) (ls : bytes) (w h : Z)
  : list (list Cell.t) :=
  map (fun x =>
         map (fun y =>
                cell_of_record reverse_endian
                  (slice ls (cell_position h x y) (cell_position h x y + 10)))
           (seq 0 (Z.to_nat h)))
    (seq 0 (Z.to_nat w)).

(** The bytes taken by a sequence of layer records. *)
Definition records_size (layers : list Layer.t) : Z :=
  fold_right
    (fun L acc => layer_record_size (Layer.width L) (Layer.height L) + acc)
    0 layers.

(** The offset of layer number [k]: the header and the records before it. *)
Definition layer_offset (layers : list Layer.t) (k : nat) : Z :=
  8 + records_size (firstn k layers).

(** Every number of the cell fits its field. *)
Definition cell_in_range (c : Cell.t) : Prop :=
  0 <= Cell.keycode c < 2 ^ 32
  /\ 0 <= Cell.fore_r c <= 255 /\ 0 <= Cell.fore_g c <= 255
  /\ 0 <= Cell.fore_b c <= 255 /\ 0 <= Cell.back_r c <= 255
  /\ 0 <= Cell.back_g c <= 255 /\ 0 <= Cell.back_b c <= 255.

Definition layer_in_range (L : Layer.t) : Prop :=
  0 <= Layer.width L < 2 ^ 32 /\ 0 <= Layer.height L < 2 ^ 32
  /\ Forall (Forall cell_in_range) (Layer.cells L).

(** ** A buffer for a given document

    The binary layout written out, every multi-byte field little-endian
    ([le32] is given with the sample inputs below); it serves to show that
    every well-formed document is the decoding of some buffer. *)

Definition byte_of_Z (z : Z) : byte :=
  match Byte.of_N (Z.to_N z) with
  | Some b => b
  | None => x00
  end.

Definition field_bytes (n : Z) : bytes :=
  map byte_of_Z
    [n mod 256; (n / 256) mod 256; (n / 65536) mod 256;
     (n / 16777216) mod 256].

Definition record_of_cell (c : Cell.t) : bytes :=
  field_bytes (Cell.keycode c)
  ++ map byte_of_Z
       [Cell.fore_r c; Cell.fore_g c; Cell.fore_b c;
        Cell.back_r c; Cell.back_g c; Cell.back_b c].

Definition record_of_column (column : list Cell.t) : bytes :=
  concat (map record_of_cell column).

Definition record_of_layer (L : Layer.t) : bytes :=
  field_bytes (Layer.width L) ++ field_bytes (Layer.height L)
  ++ concat (map record_of_column (Layer.cells L)).

Definition buffer_of_document (d : Document.t) : bytes :=
  field_bytes (Document.version d) ++ field_bytes (Document.layer_count d)
  ++ concat (map record_of_layer (Document.layer_data d)).

(** A document as the decoder returns them: numbers that fit their fields,
    as many layers as [layer_count] says, grids of the layers' dimensions,
    and the largest layer dimensions as [width] and [height]. *)
Definition well_formed_layer (L : Layer.t) : Prop :=
  layer_in_range L /\ grid_shape L.

Definition well_formed_document (d : Document.t) : Prop :=
  0 <= Document.version d < 2 ^ 32
  /\ Document.layer_count d < 2 ^ 32
  /\ Document.layer_count d = Z.of_nat (length (Document.layer_data d))
  /\ Document.width d = maximum (map Layer.width (Document.layer_data d))
  /\ Document.height d = maximum (map Layer.height (Document.layer_data d))
  /\ Forall well_formed_layer (Document.layer_data d).

(** ** Sample inputs *)

Definition le32 (n : Z) : bytes :=
  match Byte.of_N (Z.to_N (n mod 256)),
        Byte.of_N (Z.to_N ((n / 256) mod 256)),
        Byte.of_N (Z.to_N ((n / 65536) mod 256)),
        Byte.of_N (Z.to_N ((n / 16777216) mod 256)) with
  | Some b0, Some b1, Some b2, Some b3 => [b0; b1; b2; b3]
  | _, _, _, _ => []
  end.

Definition sample_cell (k : Z) : bytes := le32 k ++ [xfc; xfc; xfc; x00; x00; x00].

(** One layer of width 2 and height 1 holding the keycodes 65 and 66,
    after the header fields [version] (four arbitrary bytes) and
    [layer_count = 1]; every multi-byte field is little-endian. *)
Definition two_cell_buffer (v0 v1 v2 v3 : byte) : bytes :=
  [v0; v1; v2; v3] ++ le32 1 ++ le32 2 ++ le32 1 ++ sample_cell 65 ++ sample_cell 66.

(** Its only layer record, and the decoded cells. *)
Definition two_cell_layer_record : bytes :=
  le32 2 ++ le32 1 ++ sample_cell 65 ++ sample_cell 66.

Definition decoded_sample_cell (k : Z) : Cell.t := Cell.mk k 252 252 252 0 0 0.

Definition two_cell_layer : Layer.t :=
  Layer.mk 2 1 [[decoded_sample_cell 65]; [decoded_sample_cell 66]].

(** A header and nothing else: [version] (four arbitrary bytes) and
    [layer_count = 0]. *)
Definition empty_document_buffer (v0 v1 v2 v3 : byte) : bytes :=
  [v0; v1; v2; v3; x00; x00; x00; x00].

(** Six bytes: the [layer_count] field lacks its last two bytes. *)
Definition short_header : bytes := [x00; x00; x00; x00; x00; x00].

(** A header announcing one layer, followed by six bytes only: the layer's
    [height] field lacks its last two bytes. *)
Definition cut_layer_header : bytes :=
  le32 0 ++ le32 1 ++ [x00; x00; x00; x00; x00; x00].

(** A header announcing one layer of one cell, cut after the fifth byte of
    the cell record. *)
Definition cut_cell_buffer : bytes :=
  le32 0 ++ le32 1 ++ le32 1 ++ le32 1 ++ [x41; x00; x00; x00; xfc].

(** A header announcing one layer, then its [width = 1] and the first byte
    only of its [height], which reads as 1. *)
Definition cut_height_buffer : bytes :=
  le32 0 ++ le32 1 ++ le32 1 ++ [x01].

(** * Properties *)

(** ** Slices *)

Section SliceFacts.
Context {A : Type}.
Implicit Types s t : list A.

Lemma slice_nonneg s lo hi :
  0 <= lo -> 0 <= hi ->
  slice s lo hi
  = firstn (Z.to_nat hi - Z.to_nat lo) (skipn (Z.to_nat lo) s).
Proof.
  intros Hlo Hhi. unfold slice, clamp_index.
  destruct (Z.ltb_spec lo 0) as [?|_]; [lia|].
  destruct (Z.ltb_spec hi 0) as [?|_]; [lia|].
  destruct (Z_lt_le_dec lo (Z.of_nat (length s))) as [Hin|Hout].
  - rewrite (Z.min_l lo) by lia.
    destruct (Z_le_gt_dec hi (Z.of_nat (length s))) as [Hh|Hh].
    + rewrite (Z.min_l hi) by lia. f_equal. lia.
    + rewrite (Z.min_r hi) by lia.
      rewrite !firstn_all2; trivial; rewrite length_skipn; lia.
  - rewrite (skipn_all2 (n := Z.to_nat lo)) by lia.
    rewrite (skipn_all2 (n := Z.to_nat (Z.min lo _))) by lia.
    now rewrite !firstn_nil.
Qed.

Lemma length_slice s lo hi :
  0 <= lo -> 0 <= hi ->
  length (slice s lo hi)
  = Nat.min (Z.to_nat hi - Z.to_nat lo) (length s - Z.to_nat lo).
Proof.
  intros. rewrite slice_nonneg by assumption.
  now rewrite length_firstn, length_skipn.
Qed.

(** A slice that lies inside the sequence has the length asked for. *)
Lemma length_slice_inside s lo n :
  0 <= lo -> 0 <= n -> lo + n <= Z.of_nat (length s) ->
  Z.of_nat (length (slice s lo (lo + n))) = n.
Proof. intros. rewrite length_slice by lia. lia. Qed.

Lemma slice_empty_iff s lo hi :
  0 <= lo -> 0 <= hi ->
  slice s lo hi = [] <-> hi <= lo \/ Z.of_nat (length s) <= lo.
Proof.
  intros. rewrite <- length_zero_iff_nil, length_slice by assumption. lia.
Qed.

(** Bytes appended after the end of a slice do not change it. *)
Lemma slice_app_inside s t lo hi :
  0 <= lo -> 0 <= hi -> hi <= Z.of_nat (length s) ->
  slice (s ++ t) lo hi = slice s lo hi.
Proof.
  intros. rewrite !slice_nonneg by assumption.
  rewrite skipn_app, firstn_app, length_skipn.
  replace (Z.to_nat hi - Z.to_nat lo - (length s - Z.to_nat lo))%nat
    with 0%nat by lia.
  now rewrite firstn_0, app_nil_r.
Qed.

(** A slice of a slice is a slice of the whole. *)
Lemma slice_slice s o n a b :
  0 <= o -> 0 <= a -> 0 <= b -> b <= n ->
  slice (slice s o (o + n)) a b = slice s (o + a) (o + b).
Proof.
  intros. rewrite !slice_nonneg by lia.
  rewrite skipn_firstn_comm, firstn_firstn, skipn_skipn.
  f_equal; [lia | f_equal; lia].
Qed.

Lemma slice_whole_prefix s n a b :
  0 <= a -> 0 <= b -> b <= n ->
  slice (slice s 0 n) a b = slice s a b.
Proof.
  intros. rewrite <- (Z.add_0_l n). rewrite slice_slice by lia.
  now rewrite !Z.add_0_l.
Qed.
End SliceFacts.

(** ** [_bytes_to_int] is the big-endian reading *)

Lemma byte_val_range x : 0 <= byte_val x < 256.
Proof.
  unfold byte_val. pose proof (Byte.to_N_bounded x). lia.
Qed.

Lemma byte_val_inj x y : byte_val x = byte_val y -> x = y.
Proof.
  unfold byte_val. intros H. apply N2Z.inj in H.
  pose proof (Byte.of_to_N x) as Hx. rewrite H, Byte.of_to_N in Hx.
  now injection Hx.
Qed.

Lemma digit_of_hex_digit x :
  digit_of_byte (hex_digit (Byte.to_N x / 16)) = Some (byte_val x / 16)
  /\ digit_of_byte (hex_digit (Byte.to_N x mod 16)) = Some (byte_val x mod 16).
Proof. destruct x; split; vm_compute; reflexivity. Qed.

Lemma int_digits_b16encode b : forall acc,
  int_digits (b16encode b) acc
  = OK (fold_left (fun a x => a * 256 + byte_val x) b acc).
Proof.
  induction b as [|x b IH]; intros acc; [reflexivity|].
  cbn [b16encode flat_map app int_digits fold_left].
  destruct (digit_of_hex_digit x) as [-> ->].
  fold (b16encode b). rewrite IH. do 2 f_equal.
  pose proof (Z.div_mod (byte_val x) 16). lia.
Qed.

Lemma bytes_to_int_nil : _bytes_to_int [] = Raise ValueError.
Proof. reflexivity. Qed.

Lemma bytes_to_int_cons x b : _bytes_to_int (x :: b) = OK (be_value (x :: b)).
Proof.
  unfold _bytes_to_int, int_16.
  change (b16encode (x :: b))
    with (hex_digit (Byte.to_N x / 16) :: hex_digit (Byte.to_N x mod 16)
            :: b16encode b) at 1.
  cbv iota. apply int_digits_b16encode.
Qed.

Lemma bytes_to_int_nonempty b : b <> [] -> _bytes_to_int b = OK (be_value b).
Proof. destruct b; [congruence | intros _; apply bytes_to_int_cons]. Qed.

Lemma bytes_to_int_OK b v :
  _bytes_to_int b = OK v -> b <> [] /\ v = be_value b.
Proof.
  destruct b as [|x b]; [discriminate|].
  rewrite bytes_to_int_cons. intros [= <-]. split; congruence.
Qed.

Lemma bytes_to_int_Raise b e : _bytes_to_int b = Raise e -> b = [].
Proof.
  destruct b as [|x b]; [reflexivity|]. now rewrite bytes_to_int_cons.
Qed.

(** ** The positional readings *)

Lemma fold_be_acc b : forall acc,
  fold_left (fun a x => a * 256 + byte_val x) b acc
  = acc * 256 ^ Z.of_nat (length b) + be_value b.
Proof.
  unfold be_value.
  induction b as [|x b IH]; intros acc; cbn [fold_left length].
  - change (256 ^ Z.of_nat 0) with 1. lia.
  - rewrite IH, (IH (0 * 256 + byte_val x)), Nat2Z.inj_succ, Z.pow_succ_r by lia.
    ring.
Qed.

Lemma be_value_cons x b :
  be_value (x :: b) = byte_val x * 256 ^ Z.of_nat (length b) + be_value b.
Proof.
  unfold be_value at 1. cbn [fold_left]. rewrite fold_be_acc. ring.
Qed.

Lemma be_value_snoc b x : be_value (b ++ [x]) = be_value b * 256 + byte_val x.
Proof. unfold be_value. now rewrite fold_left_app. Qed.

Lemma be_value_rev b : be_value (rev b) = le_value b.
Proof.
  induction b as [|x b IH]; [reflexivity|].
  cbn [rev le_value fold_right]. rewrite be_value_snoc, IH.
  unfold le_value. ring.
Qed.

Lemma le_value_rev b : le_value (rev b) = be_value b.
Proof. now rewrite <- be_value_rev, rev_involutive. Qed.

Lemma le_value_range b : 0 <= le_value b < 256 ^ Z.of_nat (length b).
Proof.
  induction b as [|x b IH]; cbn [le_value fold_right length].
  - change (256 ^ Z.of_nat 0) with 1. lia.
  - fold (le_value b). rewrite Nat2Z.inj_succ, Z.pow_succ_r by lia.
    pose proof (byte_val_range x). lia.
Qed.

Lemma be_value_range b : 0 <= be_value b < 256 ^ Z.of_nat (length b).
Proof.
  rewrite <- le_value_rev, <- (length_rev b). apply le_value_range.
Qed.

Lemma le_value_inj a : forall b,
  length a = length b -> le_value a = le_value b -> a = b.
Proof.
  induction a as [|x a IH]; intros [|y b]; try discriminate; [reflexivity|].
  cbn [length le_value fold_right]. fold (le_value a) (le_value b).
  intros [= Hlen] Hval.
  pose proof (byte_val_range x). pose proof (byte_val_range y).
  assert (byte_val x = byte_val y) by lia.
  f_equal; [now apply byte_val_inj | apply IH; [assumption | lia]].
Qed.

Lemma be_value_inj a b :
  length a = length b -> be_value a = be_value b -> a = b.
Proof.
  intros Hlen Hval. rewrite <- (rev_involutive a), <- (rev_involutive b).
  f_equal. apply le_value_inj; [now rewrite !length_rev|].
  now rewrite !le_value_rev.
Qed.

(** The sums of the specification. *)

Lemma sum_over_succ n f :
  sum_over (S n) f = f 0%nat + sum_over n (fun i => f (S i)).
Proof.
  unfold sum_over. cbn [seq map fold_right].
  now rewrite <- seq_shift, map_map.
Qed.

Lemma sum_over_ext n f g :
  (forall i, f i = g i) -> sum_over n f = sum_over n g.
Proof. intros H. unfold sum_over. now rewrite (map_ext f g H). Qed.

Lemma sum_over_scale n c g :
  sum_over n (fun i => c * g i) = c * sum_over n g.
Proof.
  unfold sum_over. induction (seq 0 n) as [|i l IH]; cbn [map fold_right].
  - ring.
  - rewrite IH. ring.
Qed.

Lemma be_sum_value b : be_sum b = be_value b.
Proof.
  induction b as [|x b IH]; [reflexivity|].
  rewrite be_value_cons, <- IH. unfold be_sum. cbn [length].
  rewrite sum_over_succ. unfold byte_at at 1. cbn [nth].
  rewrite Nat.sub_0_r. f_equal; [f_equal; f_equal; lia|].
  apply sum_over_ext. intros i. unfold byte_at. cbn [nth].
  do 3 f_equal. lia.
Qed.

Lemma le_sum_value b : le_sum b = le_value b.
Proof.
  induction b as [|x b IH]; [reflexivity|].
  cbn [le_value fold_right]. fold (le_value b). rewrite <- IH.
  unfold le_sum. cbn [length]. rewrite sum_over_succ.
  unfold byte_at at 1. cbn [nth]. change (256 ^ Z.of_nat 0) with 1.
  rewrite Z.mul_1_r. f_equal. rewrite <- sum_over_scale.
  apply sum_over_ext. intros i. unfold byte_at. cbn [nth].
  rewrite Nat2Z.inj_succ, Z.pow_succ_r by lia. ring.
Qed.

(** ** Results of computations that may raise *)

Lemma result_cases {A : Type} (m : result A) :
  (exists a, m = OK a) \/ m = Raise ValueError.
Proof. destruct m as [a|[]]; eauto. Qed.

Lemma bind_OK {A B : Type} (m : result A) (k : A -> result B) b :
  bind m k = OK b -> exists a, m = OK a /\ k a = OK b.
Proof. destruct m; cbn [bind]; [eauto | discriminate]. Qed.

Lemma bind_assoc {A B C : Type} (m : result A) (k : A -> result B)
    (k' : B -> result C) :
  bind (bind m k) k' = bind m (fun a => bind (k a) k').
Proof. now destruct m. Qed.

(** Peel the successful steps off a hypothesis [x <- m ;; k = OK b]. *)
Ltac inv_bind H :=
  lazymatch type of H with
  | bind _ _ = OK _ =>
      let a := fresh "v" in
      let E := fresh "E" in
      apply bind_OK in H; destruct H as (a & E & H); inv_bind H
  | _ => idtac
  end.

(** ** Reading one field *)

Lemma field_value_nonneg re field : 0 <= field_value re field.
Proof.
  destruct re; cbn [field_value];
    [apply le_value_range | apply be_value_range].
Qed.

Lemma field_value_range re field :
  0 <= field_value re field < 256 ^ Z.of_nat (length field).
Proof.
  destruct re; cbn [field_value];
    [apply le_value_range | apply be_value_range].
Qed.

Lemma be_value_reverse_if re field :
  be_value (reverse_if re field) = field_value re field.
Proof. destruct re; [apply be_value_rev | reflexivity]. Qed.

Lemma reverse_if_nil re field : reverse_if re field = [] <-> field = [].
Proof.
  destruct re; cbn [reverse_if]; [|tauto].
  split; intros H; [|now subst].
  now rewrite <- (rev_involutive field), H.
Qed.

Lemma read_field_OK re field v :
  _bytes_to_int (reverse_if re field) = OK v ->
  field <> [] /\ v = field_value re field.
Proof.
  intros H. apply bytes_to_int_OK in H. destruct H as [Hne ->].
  rewrite reverse_if_nil in Hne. now rewrite be_value_reverse_if.
Qed.

Lemma read_field_nonempty re field :
  field <> [] -> _bytes_to_int (reverse_if re field) = OK (field_value re field).
Proof.
  intros H. rewrite bytes_to_int_nonempty by now rewrite reverse_if_nil.
  now rewrite be_value_reverse_if.
Qed.

Lemma slice_nonempty_length (s : bytes) lo hi :
  0 <= lo -> 0 <= hi -> slice s lo hi <> [] -> lo < hi /\ lo < buffer_length s.
Proof.
  intros Hlo Hhi H. rewrite slice_empty_iff in H by assumption.
  unfold buffer_length. lia.
Qed.

Lemma buffer_length_slice (s : bytes) lo hi :
  0 <= lo -> 0 <= hi ->
  buffer_length (slice s lo hi) = Z.max 0 (Z.min hi (buffer_length s) - lo).
Proof.
  intros. unfold buffer_length. rewrite length_slice by assumption. lia.
Qed.

(** ** The cell decoder *)

Lemma parse_cell_unfold cs re :
  _parse_individual_cell cs re
  = (keycode <- _bytes_to_int (reverse_if re (slice cs 0 4)) ;;
     fore_r <- _bytes_to_int (slice cs 4 5) ;;
     fore_g <- _bytes_to_int (slice cs 5 6) ;;
     fore_b <- _bytes_to_int (slice cs 6 7) ;;
     back_r <- _bytes_to_int (slice cs 7 8) ;;
     back_g <- _bytes_to_int (slice cs 8 9) ;;
     back_b <- _bytes_to_int (slice cs 9 10) ;;
     OK (Cell.mk keycode fore_r fore_g fore_b back_r back_g back_b)).
Proof. reflexivity. Qed.

Lemma parse_cell_OK cs re c :
  _parse_individual_cell cs re = OK c ->
  10 <= buffer_length cs /\ Cell.keycode c = field_value re (slice cs 0 4).
Proof.
  rewrite parse_cell_unfold. intros H. inv_bind H. injection H as <-.
  apply read_field_OK in E. apply bytes_to_int_OK in E5.
  destruct E as [_ ->], E5 as [Hne _].
  apply slice_nonempty_length in Hne; [|lia|lia]. cbn [Cell.keycode].
  split; [lia | reflexivity].
Qed.

(** ** The loops of [_parse_layer] *)

Lemma row_loop_OK n ls re : forall row o row' o',
  row_loop n ls re row o = OK (row', o') -> 0 <= o ->
  length row' = (length row + n)%nat
  /\ o' = o + 10 * Z.of_nat n
  /\ (n = 0%nat \/ o' <= buffer_length ls).
Proof.
  induction n as [|n IH]; intros row o row' o' H Ho.
  - injection H as <- <-. repeat split; [lia | lia | now left].
  - cbn [row_loop] in H. apply bind_OK in H. destruct H as (c & Ec & H).
    apply parse_cell_OK in Ec. destruct Ec as [Hlen _].
    rewrite buffer_length_slice in Hlen by (unfold layer_cell_bytes; cbn; lia).
    unfold layer_cell_bytes in *. cbn in Hlen, H.
    apply IH in H; [|lia]. destruct H as (Hrow & -> & Hin).
    rewrite length_app in Hrow. cbn [length] in Hrow.
    repeat split; [lia | lia | right].
    destruct Hin as [-> | Hin]; lia.
Qed.

Lemma cells_loop_OK n h ls re : forall cells o cells' o',
  cells_loop n h ls re cells o = OK (cells', o') -> 0 <= o ->
  exists new,
    cells' = cells ++ new
    /\ length new = n
    /\ Forall (fun column => length column = Z.to_nat h) new
    /\ o' = o + 10 * Z.of_nat n * Z.of_nat (Z.to_nat h)
    /\ (n = 0%nat \/ Z.to_nat h = 0%nat \/ o' <= buffer_length ls).
Proof.
  induction n as [|n IH]; intros cells o cells' o' H Ho.
  - injection H as <- <-. exists []. rewrite app_nil_r.
    repeat split; [constructor | lia | now left].
  - cbn [cells_loop] in H. apply bind_OK in H.
    destruct H as ([row o1] & Er & H). cbn [fst snd] in H.
    apply row_loop_OK in Er; [|assumption].
    destruct Er as (Hrow & -> & Hin1). cbn [length] in Hrow.
    apply IH in H; [|lia].
    destruct H as (new & -> & Hlen & Hall & -> & Hin).
    exists (row :: new). rewrite <- app_assoc. cbn [app length].
    repeat split; [congruence | now constructor | lia |].
    destruct (Nat.eq_dec (Z.to_nat h) 0) as [Hz|Hnz]; [now right; left|].
    right; right. destruct Hin as [-> | [Hin | Hin]]; lia.
Qed.

Lemma parse_layer_unfold ls re :
  _parse_layer ls re
  = (width <- _bytes_to_int (reverse_if re (slice ls 0 4)) ;;
     height <- _bytes_to_int (reverse_if re (slice ls 4 8)) ;;
     r <- cells_loop (Z.to_nat width) height ls re [] 8 ;;
     OK (Layer.mk width height (fst r))).
Proof. reflexivity. Qed.

Lemma parse_layer_OK ls re L :
  _parse_layer ls re = OK L ->
  4 < buffer_length ls
  /\ Layer.width L = field_value re (slice ls 0 4)
  /\ Layer.height L = field_value re (slice ls 4 8)
  /\ grid_shape L
  /\ (Layer.width L * Layer.height L = 0
      \/ layer_record_size (Layer.width L) (Layer.height L)
         <= buffer_length ls).
Proof.
  rewrite parse_layer_unfold. intros H. inv_bind H. injection H as <-.
  apply read_field_OK in E, E0. destruct E as [_ ->], E0 as [Hne ->].
  apply slice_nonempty_length in Hne; [|lia|lia].
  destruct v1 as [cells o']. apply cells_loop_OK in E1; [|lia].
  destruct E1 as (new & -> & Hlen & Hall & -> & Hin).
  cbn [fst Layer.width Layer.height Layer.cells app].
  set (w := field_value re (slice ls 0 4)) in *.
  set (h := field_value re (slice ls 4 8)) in *.
  assert (0 <= w) by apply field_value_nonneg.
  assert (0 <= h) by apply field_value_nonneg.
  repeat split.
  - lia.
  - cbn [Layer.cells Layer.width]. lia.
  - cbn [Layer.cells Layer.height]. eapply Forall_impl; [|exact Hall].
    cbn beta. intros column Hc. lia.
  - unfold layer_record_size, layer_width_bytes, layer_height_bytes,
      layer_cell_bytes, layer_keycode_bytes, layer_fore_rgb_bytes,
      layer_back_rgb_bytes.
    destruct Hin as [Hin | [Hin | Hin]].
    + left. assert (w = 0) by lia. subst w. lia.
    + left. assert (h = 0) by lia. lia.
    + right. rewrite !Z2Nat.id in Hin by assumption. lia.
Qed.

(** ** Where each cell of the grid comes from *)

Lemma row_loop_cells n ls re : forall row o row' o',
  row_loop n ls re row o = OK (row', o') ->
  exists new,
    row' = row ++ new
    /\ forall y c, nth_error new y = Some c ->
         _parse_individual_cell
           (slice ls (o + 10 * Z.of_nat y) (o + 10 * Z.of_nat y + 10)) re
         = OK c.
Proof.
  induction n as [|n IH]; intros row o row' o' H.
  - injection H as <- <-. exists []. rewrite app_nil_r.
    split; [reflexivity | intros [|y] c; discriminate].
  - cbn [row_loop] in H. change layer_cell_bytes with 10 in H.
    apply bind_OK in H. destruct H as (c0 & Ec & H).
    apply IH in H. destruct H as (new & -> & Hnew).
    exists (c0 :: new). rewrite <- app_assoc. split; [reflexivity|].
    intros [|y] c Hy; cbn [nth_error] in Hy.
    + injection Hy as <-. rewrite <- Ec. f_equal; f_equal; lia.
    + apply Hnew in Hy. rewrite <- Hy. f_equal; f_equal; lia.
Qed.

Lemma cells_loop_cells n h ls re : forall cells o cells' o',
  cells_loop n h ls re cells o = OK (cells', o') -> 0 <= o ->
  exists new,
    cells' = cells ++ new
    /\ forall x column y c,
         nth_error new x = Some column -> nth_error column y = Some c ->
         let pos :=
           o + 10 * (Z.of_nat x * Z.of_nat (Z.to_nat h) + Z.of_nat y) in
         _parse_individual_cell (slice ls pos (pos + 10)) re = OK c.
Proof.
  induction n as [|n IH]; intros cells o cells' o' H Ho.
  - injection H as <- <-. exists []. rewrite app_nil_r.
    split; [reflexivity | intros [|x] column y c; discriminate].
  - cbn [cells_loop] in H. apply bind_OK in H.
    destruct H as ([row o1] & Er & H). cbn [fst snd] in H.
    pose proof (row_loop_OK _ _ _ _ _ _ _ Er Ho) as (_ & -> & _).
    apply row_loop_cells in Er. destruct Er as (cs & -> & Hrow).
    apply IH in H; [|lia]. destruct H as (new & -> & Hnew).
    cbn [app]. exists (cs :: new). rewrite <- app_assoc.
    split; [reflexivity|].
    intros [|x] column y c Hx Hy; cbn [nth_error] in Hx; cbv zeta.
    + injection Hx as <-. apply Hrow in Hy. rewrite <- Hy.
      f_equal; f_equal; lia.
    + specialize (Hnew x column y c Hx Hy). cbv zeta in Hnew.
      rewrite <- Hnew. f_equal; f_equal; lia.
Qed.

Lemma parse_layer_cell_at (layer_string : bytes)
    (reverse_endian : bool) (L : Layer.t) (x y : nat) (column : list Cell.t)
    (c : Cell.t) :
  _parse_layer layer_string reverse_endian = OK L ->
  nth_error (Layer.cells L) x = Some column ->
  nth_error column y = Some c ->
  let pos := 8 + 10 * (Z.of_nat x * Layer.height L + Z.of_nat y) in
  _parse_individual_cell (slice layer_string pos (pos + 10)) reverse_endian
  = OK c.
Proof.
  rewrite parse_layer_unfold. intros H Hx Hy. inv_bind H. injection H as <-.
  apply read_field_OK in E0. destruct E0 as [_ ->].
  destruct v1 as [cells o']. apply cells_loop_cells in E1; [|lia].
  destruct E1 as (new & -> & Hnew). cbn [fst app Layer.cells Layer.height] in *.
  specialize (Hnew x column y c Hx Hy). cbv zeta in Hnew |- *.
  rewrite Z2Nat.id in Hnew by apply field_value_nonneg. exact Hnew.
Qed.

(** X14.  The cell [cells[x][y]] of a decoded layer is the decoding of the
    10-byte record number [x * height + y] after the two dimensions: the
    records are stored by increasing [x] and, for one [x], by increasing
    [y]. *)
Theorem cells_are_stored_by_column (layer_string : bytes)
    (reverse_endian : bool) (L : Layer.t) (x y : nat) (column : list Cell.t)
    (c : Cell.t) :
  _parse_layer layer_string reverse_endian = OK L ->
  nth_error (Layer.cells L) x = Some column ->
  nth_error column y = Some c ->
  let pos := 8 + 10 * (Z.of_nat x * Layer.height L + Z.of_nat y) in
  _parse_individual_cell (slice layer_string pos (pos + 10)) reverse_endian
  = OK c.
Proof. apply parse_layer_cell_at. Qed.

(** ** The header and the layer loop *)

Lemma layer_record_size_eq w h : layer_record_size w h = 8 + 10 * (w * h).
Proof.
  unfold layer_record_size, layer_width_bytes, layer_height_bytes,
    layer_cell_bytes, layer_keycode_bytes, layer_fore_rgb_bytes,
    layer_back_rgb_bytes. ring.
Qed.

Lemma layer_record_size_min w h : 0 <= w -> 0 <= h -> 8 <= layer_record_size w h.
Proof. intros. rewrite layer_record_size_eq. nia. Qed.

Lemma load_xp_header_unfold fs re :
  load_xp_header fs re
  = (version <- _bytes_to_int (reverse_if re (slice fs 0 4)) ;;
     layer_count <- _bytes_to_int (reverse_if re (slice fs 4 8)) ;;
     OK (version, layer_count, 8)).
Proof. reflexivity. Qed.

Lemma load_xp_header_OK fs re version layer_count offset :
  load_xp_header fs re = OK (version, layer_count, offset) ->
  offset = 8
  /\ 4 < buffer_length fs
  /\ version = field_value re (slice fs 0 4)
  /\ layer_count = field_value re (slice fs 4 8).
Proof.
  rewrite load_xp_header_unfold. intros H. inv_bind H.
  injection H as <- <- <-.
  apply read_field_OK in E, E0. destruct E as [_ ->], E0 as [Hne ->].
  apply slice_nonempty_length in Hne; [|lia|lia]. repeat split. lia.
Qed.

Lemma load_xp_header_long fs re :
  4 < buffer_length fs ->
  load_xp_header fs re
  = OK (field_value re (slice fs 0 4), field_value re (slice fs 4 8), 8).
Proof.
  intros H. rewrite load_xp_header_unfold.
  rewrite !read_field_nonempty; [reflexivity | |];
    rewrite slice_empty_iff by lia; unfold buffer_length in H; lia.
Qed.

Lemma load_xp_header_short fs re :
  buffer_length fs <= 4 -> load_xp_header fs re = Raise ValueError.
Proof.
  intros H. destruct (result_cases (load_xp_header fs re))
    as [[[[v n] o] E] | E]; [|exact E].
  apply load_xp_header_OK in E. lia.
Qed.

Lemma layer_iteration_unfold fs re st :
  layer_iteration fs re st
  = (let o := Framer.offset st in
     w <- _bytes_to_int (reverse_if re (slice fs o (o + 4))) ;;
     h <- _bytes_to_int (reverse_if re (slice fs (o + 4) (o + 8))) ;;
     L <- _parse_layer (slice fs o (o + layer_record_size w h)) re ;;
     OK (Framer.mk (o + layer_record_size w h)
           (Z.max (Framer.current_largest_width st) w)
           (Z.max (Framer.current_largest_height st) h)
           (Framer.layers st ++ [L]))).
Proof.
  unfold layer_iteration, layer_record_size, layer_width_bytes,
    layer_height_bytes.
  now replace (Framer.offset st + 4 + 4) with (Framer.offset st + 8) by ring.
Qed.

(** What one completed iteration has done. *)
Lemma layer_iteration_OK fs re st st' :
  layer_iteration fs re st = OK st' -> 0 <= Framer.offset st ->
  let o := Framer.offset st in
  let w := field_value re (slice fs o (o + 4)) in
  let h := field_value re (slice fs (o + 4) (o + 8)) in
  exists L,
    _parse_layer (slice fs o (o + layer_record_size w h)) re = OK L
    /\ Layer.width L = w /\ Layer.height L = h /\ grid_shape L
    /\ st' = Framer.mk (o + layer_record_size w h)
               (Z.max (Framer.current_largest_width st) w)
               (Z.max (Framer.current_largest_height st) h)
               (Framer.layers st ++ [L])
    /\ o + 4 < buffer_length fs
    /\ (w * h = 0 \/ o + layer_record_size w h <= buffer_length fs).
Proof.
  rewrite layer_iteration_unfold. cbv zeta. intros H Ho. inv_bind H.
  injection H as <-.
  apply read_field_OK in E, E0. destruct E as [_ ->], E0 as [Hne ->].
  apply slice_nonempty_length in Hne; [|lia|lia].
  set (o := Framer.offset st) in *.
  set (w := field_value re (slice fs o (o + 4))) in *.
  set (h := field_value re (slice fs (o + 4) (o + 8))) in *.
  assert (Hw : 0 <= w) by apply field_value_nonneg.
  assert (Hh : 0 <= h) by apply field_value_nonneg.
  pose proof (layer_record_size_min w h Hw Hh) as Hsize.
  exists v1. pose proof (parse_layer_OK _ _ _ E1) as (_ & HW & HH & Hshape & Hin).
  rewrite slice_slice in HW, HH by lia.
  rewrite Z.add_0_r in HW. fold w in HW. fold h in HH.
  split; [exact E1|]. split; [exact HW|]. split; [exact HH|].
  split; [exact Hshape|]. split; [reflexivity|]. split; [lia|].
  rewrite HW, HH in Hin. destruct Hin as [Hin | Hin]; [now left | right].
  rewrite buffer_length_slice in Hin by lia. lia.
Qed.

Lemma layer_loop_OK n fs re : forall st st',
  layer_loop n fs re st = OK st' -> 0 <= Framer.offset st ->
  exists new,
    Framer.layers st' = Framer.layers st ++ new
    /\ length new = n
    /\ Forall grid_shape new
    /\ Forall (fun L => 0 <= Layer.width L /\ 0 <= Layer.height L) new
    /\ Framer.current_largest_width st'
       = fold_left Z.max (map Layer.width new) (Framer.current_largest_width st)
    /\ Framer.current_largest_height st'
       = fold_left Z.max (map Layer.height new)
           (Framer.current_largest_height st)
    /\ Framer.offset st <= Framer.offset st'.
Proof.
  induction n as [|n IH]; intros st st' H Ho.
  - injection H as <-. exists []. rewrite app_nil_r.
    repeat split; try constructor. lia.
  - cbn [layer_loop] in H. apply bind_OK in H. destruct H as (st1 & E1 & H).
    apply layer_iteration_OK in E1; [|assumption]. cbv zeta in E1.
    destruct E1 as (L & _ & HW & HH & Hshape & -> & _ & _).
    set (w := field_value re (slice fs (Framer.offset st) _)) in *.
    set (h := field_value re (slice fs (Framer.offset st + 4) _)) in *.
    assert (Hw : 0 <= w) by apply field_value_nonneg.
    assert (Hh : 0 <= h) by apply field_value_nonneg.
    pose proof (layer_record_size_min w h Hw Hh) as Hsize.
    apply IH in H; [|cbn [Framer.offset]; lia].
    destruct H as (new & Hl & Hn & Hs & Hp & Hmw & Hmh & Ho').
    cbn [Framer.layers Framer.offset Framer.current_largest_width
           Framer.current_largest_height] in *.
    exists (L :: new). rewrite <- app_assoc in Hl. cbn [app map fold_left length].
    rewrite HW, HH.
    repeat split; try assumption; try lia;
      constructor; try assumption; lia.
Qed.

Lemma layer_loop_add k m fs re st :
  layer_loop (k + m) fs re st
  = (st' <- layer_loop k fs re st ;; layer_loop m fs re st').
Proof.
  revert st. induction k as [|k IH]; intros st; [reflexivity|].
  cbn [Nat.add layer_loop]. rewrite bind_assoc.
  destruct (layer_iteration fs re st) as [st1|e]; cbn [bind]; [apply IH | reflexivity].
Qed.

(** Bytes after the end of what an iteration reads do not matter. *)
Lemma layer_iteration_app fs t re st st' :
  layer_iteration fs re st = OK st' -> 0 <= Framer.offset st ->
  Framer.offset st' <= buffer_length fs ->
  layer_iteration (fs ++ t) re st = OK st'.
Proof.
  intros H Ho Hend. pose proof H as H0.
  rewrite layer_iteration_unfold in H |- *. cbv zeta in *.
  inv_bind H.
  pose proof (read_field_OK _ _ _ E) as [_ Hv].
  pose proof (read_field_OK _ _ _ E0) as [_ Hv0].
  pose proof (field_value_nonneg re (slice fs (Framer.offset st) (Framer.offset st + 4))).
  pose proof (field_value_nonneg re (slice fs (Framer.offset st + 4) (Framer.offset st + 8))).
  pose proof (layer_record_size_min v v0 ltac:(lia) ltac:(lia)) as Hsize.
  injection H as <-. cbn [Framer.offset] in Hend. unfold buffer_length in Hend.
  rewrite !slice_app_inside by lia. rewrite E. cbn [bind].
  rewrite E0. cbn [bind].
  rewrite !slice_app_inside by lia. now rewrite E1.
Qed.

Lemma layer_loop_app n fs t re : forall st st',
  layer_loop n fs re st = OK st' -> 0 <= Framer.offset st ->
  Framer.offset st' <= buffer_length fs ->
  layer_loop n (fs ++ t) re st = OK st'.
Proof.
  induction n as [|n IH]; intros st st' H Ho Hend; [exact H|].
  cbn [layer_loop] in H |- *. apply bind_OK in H. destruct H as (st1 & E1 & H).
  assert (Ho1 : Framer.offset st <= Framer.offset st1).
  { pose proof (layer_loop_OK 1 fs re st st1) as Hl. cbn [layer_loop] in Hl.
    rewrite E1 in Hl. destruct (Hl eq_refl Ho) as (_ & _ & _ & _ & _ & _ & _ & Hle).
    exact Hle. }
  assert (Ho' : Framer.offset st1 <= Framer.offset st').
  { destruct (layer_loop_OK _ _ _ _ _ H ltac:(lia)) as (_ & _ & _ & _ & _ & _ & _ & Hle).
    exact Hle. }
  rewrite (layer_iteration_app _ _ _ _ _ E1 Ho ltac:(lia)). cbn [bind].
  apply IH; [assumption | lia | assumption].
Qed.

(** An iteration that finds the buffer cut short raises. *)
Lemma layer_iteration_cut fs re st :
  0 <= Framer.offset st ->
  (let o := Framer.offset st in
   let w := field_value re (slice fs o (o + 4)) in
   let h := field_value re (slice fs (o + 4) (o + 8)) in
   buffer_length fs <= o + 4
   \/ (w * h <> 0 /\ buffer_length fs < o + layer_record_size w h)) ->
  layer_iteration fs re st = Raise ValueError.
Proof.
  cbv zeta. intros Ho Hcut.
  destruct (result_cases (layer_iteration fs re st)) as [[st' E] | E]; [|exact E].
  apply layer_iteration_OK in E; [|assumption]. cbv zeta in E.
  destruct E as (L & _ & _ & _ & _ & _ & Hh & Hin).
  destruct Hcut as [Hcut | [Hne Hcut]]; [lia|].
  destruct Hin as [Hin | Hin]; [contradiction | lia].
Qed.

(** ** The maximum of the layer dimensions *)

Lemma fold_max_nonneg l : forall a,
  0 <= a -> Forall (fun x => 0 <= x) l -> 0 <= fold_left Z.max l a.
Proof.
  induction l as [|x l IH]; intros a Ha Hl; [exact Ha|].
  cbn [fold_left]. inversion Hl; subst. apply IH; [lia | assumption].
Qed.

Lemma fold_max_zero l :
  Forall (fun x => 0 <= x) l -> fold_left Z.max l 0 = maximum l.
Proof.
  intros Hl. destruct l as [|x l]; [reflexivity|].
  inversion Hl; subst. cbn [fold_left maximum]. f_equal. lia.
Qed.

(** ** The decoder as a whole *)

Lemma load_xp_string_OK fs re d :
  load_xp_string fs re = OK d ->
  exists st,
    load_xp_header fs re
      = OK (Document.version d, Document.layer_count d, 8)
    /\ layer_loop (Z.to_nat (Document.layer_count d)) fs re (initial_state 8)
       = OK st
    /\ Document.width d = Framer.current_largest_width st
    /\ Document.height d = Framer.current_largest_height st
    /\ Document.layer_data d = Framer.layers st.
Proof.
  unfold load_xp_string. intros H. apply bind_OK in H.
  destruct H as ([[v n] o] & Eh & H).
  pose proof (load_xp_header_OK _ _ _ _ _ Eh) as (-> & _).
  apply bind_OK in H. destruct H as (st & El & H). injection H as <-.
  exists st. cbn. repeat split; assumption.
Qed.

Lemma load_xp_string_complete fs re version layer_count offset st :
  load_xp_header fs re = OK (version, layer_count, offset) ->
  layer_loop (Z.to_nat layer_count) fs re (initial_state offset) = OK st ->
  load_xp_string fs re
  = OK (Document.mk version layer_count (Framer.current_largest_width st)
          (Framer.current_largest_height st) (Framer.layers st)).
Proof.
  intros Eh El. unfold load_xp_string. rewrite Eh. cbn [bind]. now rewrite El.
Qed.

(** The layers decoded by a successful call. *)
Lemma load_xp_string_layers fs re d :
  load_xp_string fs re = OK d ->
  length (Document.layer_data d) = Z.to_nat (Document.layer_count d)
  /\ Forall grid_shape (Document.layer_data d)
  /\ Forall (fun L => 0 <= Layer.width L /\ 0 <= Layer.height L)
       (Document.layer_data d)
  /\ Document.width d
     = fold_left Z.max (map Layer.width (Document.layer_data d)) 0
  /\ Document.height d
     = fold_left Z.max (map Layer.height (Document.layer_data d)) 0.
Proof.
  intros H. apply load_xp_string_OK in H.
  destruct H as (st & _ & El & -> & -> & ->).
  apply layer_loop_OK in El; [|cbn; lia].
  destruct El as (new & -> & Hn & Hs & Hp & -> & -> & _).
  cbn [initial_state Framer.layers Framer.current_largest_width
         Framer.current_largest_height app].
  repeat split; assumption.
Qed.

(** ** Where the layers and their fields lie in the buffer *)

Lemma records_size_nonneg layers :
  Forall (fun L => 0 <= Layer.width L /\ 0 <= Layer.height L) layers ->
  0 <= records_size layers.
Proof.
  induction 1 as [|L layers [Hw Hh] _ IH]; cbn [records_size fold_right];
    [lia|].
  fold (records_size layers).
  pose proof (layer_record_size_min _ _ Hw Hh). lia.
Qed.

(** Where the loop finds each layer, and where it stops. *)
Lemma layer_loop_records n fs re : forall st st',
  layer_loop n fs re st = OK st' -> 0 <= Framer.offset st ->
  exists new,
    Framer.layers st' = Framer.layers st ++ new
    /\ Framer.offset st' = Framer.offset st + records_size new
    /\ Forall (fun L => 0 <= Layer.width L /\ 0 <= Layer.height L) new
    /\ forall k L,
         nth_error new k = Some L ->
         let o := Framer.offset st + records_size (firstn k new) in
         _parse_layer
           (slice fs o (o + layer_record_size (Layer.width L) (Layer.height L)))
           re = OK L.
Proof.
  induction n as [|n IH]; intros st st' H Ho.
  - injection H as <-. exists []. rewrite app_nil_r. cbn [records_size fold_right].
    repeat split; [lia | constructor | intros [|k] L; discriminate].
  - cbn [layer_loop] in H. apply bind_OK in H. destruct H as (st1 & E1 & H).
    apply layer_iteration_OK in E1; [|assumption]. cbv zeta in E1.
    destruct E1 as (L0 & EL & HW & HH & _ & -> & _ & _).
    set (o := Framer.offset st) in *.
    set (w := field_value re (slice fs o (o + 4))) in *.
    set (h := field_value re (slice fs (o + 4) (o + 8))) in *.
    assert (Hw : 0 <= w) by apply field_value_nonneg.
    assert (Hh : 0 <= h) by apply field_value_nonneg.
    pose proof (layer_record_size_min w h Hw Hh) as Hsize.
    apply IH in H; [|cbn [Framer.offset]; lia].
    destruct H as (new & Hl & Hoff & Hpos & Hnew).
    cbn [Framer.layers Framer.offset] in Hl, Hoff, Hnew.
    exists (L0 :: new). rewrite <- app_assoc in Hl.
    cbn [records_size fold_right]. fold (records_size new). rewrite HW, HH.
    split; [exact Hl|]. split; [lia|].
    split; [constructor; [lia | assumption]|].
    intros [|k] L Hk; cbn [nth_error firstn] in Hk |- *; cbv zeta.
    + injection Hk as <-. cbn [records_size fold_right].
      rewrite Z.add_0_r, HW, HH. exact EL.
    + specialize (Hnew k L Hk). cbv zeta in Hnew.
      cbn [records_size fold_right]. fold (records_size (firstn k new)).
      rewrite HW, HH.
      replace (o + (layer_record_size w h + records_size (firstn k new)))
        with (o + layer_record_size w h + records_size (firstn k new)) by ring.
      exact Hnew.
Qed.



(** * The properties of the specification *)

(** ** Truncated input *)

(** C1, as the specification states it, fails: a buffer of six zero bytes is
    too short for the 4-byte [layer_count] field, yet it is decoded, the two
    bytes present being read as the number 0, and a document is returned. *)
Lemma short_header_is_decoded :
  buffer_length short_header < version_bytes + layer_count_bytes
  /\ load_xp_string short_header true = OK (Document.mk 0 0 0 0 []).
Proof. split; reflexivity. Qed.

(** C1 (amended).  When the buffer stops where a field the decoder needs has
    no byte at all (the buffer has at most 4 bytes, or at most 4 bytes of a
    layer's header are present), or before the end of the record
    [8 + 10 * width * height] of a layer whose [width * height], as read
    from the bytes that are there, is not 0, decoding raises [ValueError],
    the only error of the decoder, and no document is returned. *)
Theorem ends_in_required_data_raises (file_string : bytes)
    (reverse_endian : bool) :
  ends_in_required_data file_string reverse_endian ->
  load_xp_string file_string reverse_endian = Raise ValueError
  /\ forall d, load_xp_string file_string reverse_endian <> OK d.
Proof.
  intros Hcut.
  assert (E : load_xp_string file_string reverse_endian = Raise ValueError).
  { unfold load_xp_string.
    destruct Hcut as [Hshort | (k & st & (v & n & o & Eh & Hk & El) & Hcut)].
    - now rewrite load_xp_header_short.
    - rewrite Eh. cbn [bind].
      pose proof (load_xp_header_OK _ _ _ _ _ Eh) as (-> & _).
      replace (Z.to_nat n) with (k + S (Z.to_nat n - S k))%nat by lia.
      rewrite layer_loop_add, El. cbn [bind layer_loop].
      rewrite layer_iteration_cut; [reflexivity | | exact Hcut].
      apply layer_loop_OK in El; [|cbn; lia].
      destruct El as (_ & _ & _ & _ & _ & _ & _ & Hle). cbn in Hle. lia. }
  split; [exact E | intros d Hd; rewrite E in Hd; discriminate].
Qed.

Lemma ends_in_required_data_raises_witness :
  (ends_in_required_data cut_cell_buffer true
   /\ load_xp_string cut_cell_buffer true = Raise ValueError)
  /\ (ends_in_required_data cut_height_buffer true
      /\ load_xp_string cut_height_buffer true = Raise ValueError).
Proof.
  assert (H : ends_in_required_data cut_cell_buffer true).
  { right. exists 0%nat, (initial_state 8). split.
    - exists 0, 1, 8. repeat split. cbn. lia.
    - cbv zeta. right. split; vm_compute; [discriminate | reflexivity]. }
  assert (H' : ends_in_required_data cut_height_buffer true).
  { right. exists 0%nat, (initial_state 8). split.
    - exists 0, 1, 8. repeat split. cbn. lia.
    - cbv zeta. right. split; vm_compute; [discriminate | reflexivity]. }
  split.
  - split; [exact H | exact (proj1 (ends_in_required_data_raises _ _ H))].
  - split; [exact H' | exact (proj1 (ends_in_required_data_raises _ _ H'))].
Defined.

(** ** Byte order *)



(** ** The shape of the result *)

(** C3.  In every layer of a decoded document the grid [cells] has [width]
    entries, one per [x], and each entry [cells[x]] has [height] cells. *)
Theorem cells_grid_has_layer_dimensions (file_string : bytes)
    (reverse_endian : bool) (d : Document.t) :
  load_xp_string file_string reverse_endian = OK d ->
  forall L, In L (Document.layer_data d) ->
    Z.of_nat (length (Layer.cells L)) = Layer.width L
    /\ forall x column,
         nth_error (Layer.cells L) x = Some column ->
         Z.of_nat (length column) = Layer.height L.
Proof.
  intros H L HL. apply load_xp_string_layers in H.
  destruct H as (_ & Hshape & _).
  rewrite Forall_forall in Hshape. destruct (Hshape L HL) as [Hw Hcols].
  split; [exact Hw|]. intros x column Hx.
  rewrite Forall_forall in Hcols. apply Hcols.
  eapply nth_error_In; eassumption.
Qed.

Lemma cells_grid_has_layer_dimensions_witness :
  Z.of_nat (length (Layer.cells two_cell_layer)) = Layer.width two_cell_layer
  /\ Z.of_nat (length [decoded_sample_cell 66]) = Layer.height two_cell_layer.
Proof.
  pose proof (cells_grid_has_layer_dimensions
                (two_cell_buffer x01 x02 x03 x04) true _ eq_refl
                two_cell_layer (or_introl eq_refl)) as [Hw Hcols].
  split; [exact Hw | exact (Hcols 1%nat _ eq_refl)].
Defined.

(** C4.  The [width] of a decoded document is the largest layer width and
    its [height] the largest layer height, each taken over all layers on its
    own; both are 0 when [layer_count] is 0. *)
Theorem document_size_is_maximum_over_layers (file_string : bytes)
    (reverse_endian : bool) (d : Document.t) :
  load_xp_string file_string reverse_endian = OK d ->
  Document.width d = maximum (map Layer.width (Document.layer_data d))
  /\ Document.height d = maximum (map Layer.height (Document.layer_data d))
  /\ (Document.layer_count d = 0 ->
      Document.width d = 0 /\ Document.height d = 0).
Proof.
  intros H. apply load_xp_string_layers in H.
  destruct H as (Hlen & _ & Hpos & Hw & Hh).
  assert (HW : Forall (fun x => 0 <= x) (map Layer.width (Document.layer_data d))).
  { rewrite Forall_map. eapply Forall_impl; [|exact Hpos]. cbn. tauto. }
  assert (HH : Forall (fun x => 0 <= x) (map Layer.height (Document.layer_data d))).
  { rewrite Forall_map. eapply Forall_impl; [|exact Hpos]. cbn. tauto. }
  rewrite fold_max_zero in Hw, Hh by assumption.
  split; [exact Hw|]. split; [exact Hh|].
  intros Hzero. rewrite Hzero in Hlen. apply length_zero_iff_nil in Hlen.
  rewrite Hw, Hh, Hlen. split; reflexivity.
Qed.

Lemma document_size_is_maximum_over_layers_witness :
  2 = maximum (map Layer.width [two_cell_layer])
  /\ 1 = maximum (map Layer.height [two_cell_layer]).
Proof.
  pose proof (document_size_is_maximum_over_layers
                (two_cell_buffer x01 x02 x03 x04) true _ eq_refl)
    as (Hw & Hh & _).
  split; [exact Hw | exact Hh].
Defined.

(** C5.  When decoding succeeds on a buffer that holds the 8-byte header,
    [layer_count] in the document is the 32-bit number written in bytes
    4 to 7, and the document has that many layers. *)
Theorem layer_count_matches_header (file_string : bytes)
    (reverse_endian : bool) (d : Document.t) :
  load_xp_string file_string reverse_endian = OK d ->
  8 <= buffer_length file_string ->
  length (slice file_string 4 8) = 4%nat
  /\ Document.layer_count d
     = field_value reverse_endian (slice file_string 4 8)
  /\ 0 <= Document.layer_count d < 2 ^ 32
  /\ Z.of_nat (length (Document.layer_data d)) = Document.layer_count d.
Proof.
  intros H Hlen. pose proof (load_xp_string_layers _ _ _ H) as (Hn & _).
  apply load_xp_string_OK in H. destruct H as (st & Eh & _).
  apply load_xp_header_OK in Eh. destruct Eh as (_ & _ & _ & Hcount).
  assert (H4 : length (slice file_string 4 8) = 4%nat).
  { unfold buffer_length in Hlen. rewrite length_slice; lia. }
  pose proof (field_value_range reverse_endian (slice file_string 4 8)) as Hr.
  rewrite H4 in Hr. rewrite <- Hcount in Hr.
  repeat split; try assumption; try apply Hr. lia.
Qed.

Lemma layer_count_matches_header_witness :
  8 <= buffer_length (two_cell_buffer x01 x02 x03 x04)
  /\ Z.of_nat (length [two_cell_layer]) = 1.
Proof.
  assert (Hlen : 8 <= buffer_length (two_cell_buffer x01 x02 x03 x04))
    by (vm_compute; discriminate).
  pose proof (layer_count_matches_header
                (two_cell_buffer x01 x02 x03 x04) true _ eq_refl Hlen)
    as (_ & _ & _ & Hn).
  split; [exact Hlen | exact Hn].
Defined.

(** ** Cell order *)

(** C6.  The buffer holding one layer of width 2 and height 1 with the
    keycodes 65 and 66, in little-endian fields, decodes with
    [reverse_endian] set to a document whose only layer has
    [cells[0][0].keycode = 65] and [cells[1][0].keycode = 66], whatever the
    four bytes of the version field. *)
Theorem two_cell_buffer_decodes_in_x_order (v0 v1 v2 v3 : byte) :
  exists d L c0 c1,
    load_xp_string (two_cell_buffer v0 v1 v2 v3) true = OK d
    /\ Document.version d = le_value [v0; v1; v2; v3]
    /\ Document.layer_data d = [L]
    /\ Layer.width L = 2 /\ Layer.height L = 1
    /\ Layer.cells L = [[c0]; [c1]]
    /\ Cell.keycode c0 = 65 /\ Cell.keycode c1 = 66
    /\ c0 = decoded_sample_cell 65 /\ c1 = decoded_sample_cell 66.
Proof.
  exists (Document.mk (le_value [v0; v1; v2; v3]) 1 2 1 [two_cell_layer]),
    two_cell_layer, (decoded_sample_cell 65), (decoded_sample_cell 66).
  split; [|repeat split].
  apply (load_xp_string_complete _ _ _ _ 8
           (Framer.mk 36 2 1 [two_cell_layer])).
  - rewrite load_xp_header_long by (vm_compute; reflexivity). reflexivity.
  - vm_compute. reflexivity.
Qed.

(** C8.  A buffer made of a header with [layer_count = 0] and nothing after
    it decodes, under either byte order, to a document with no layer and
    with [width = 0] and [height = 0]. *)
Theorem empty_document_decodes (v0 v1 v2 v3 : byte) (reverse_endian : bool) :
  load_xp_string (empty_document_buffer v0 v1 v2 v3) reverse_endian
  = OK (Document.mk (field_value reverse_endian [v0; v1; v2; v3]) 0 0 0 []).
Proof.
  apply (load_xp_string_complete _ _ _ _ 8 (initial_state 8));
    [|reflexivity].
  rewrite load_xp_header_long by (vm_compute; reflexivity).
  destruct reverse_endian; reflexivity.
Qed.

(** ** Layer framing *)

(** C7, as the specification states it, fails where the buffer ends inside a
    layer's [height] field: with six bytes after the header, [width] and
    [height] are read as 0, the record size is 8, the iteration completes
    and moves the cursor from 8 to 16, but the sub-buffer handed to
    [_parse_layer] holds the six bytes that are left, not eight. *)
Lemma cut_layer_header_is_framed :
  let st' := Framer.mk 16 0 0 [Layer.mk 0 0 []] in
  layer_iteration cut_layer_header true (initial_state 8) = OK st'
  /\ load_xp_string cut_layer_header true
     = OK (Document.mk 0 1 0 0 [Layer.mk 0 0 []])
  /\ Framer.offset st' - Framer.offset (initial_state 8)
     = layer_record_size 0 0
  /\ buffer_length (slice cut_layer_header 8 (8 + layer_record_size 0 0)) = 6
  /\ layer_record_size 0 0 = 8.
Proof. cbv zeta. repeat split; reflexivity. Qed.

(** C7 (amended).  In every layer iteration that completes with the layer's
    two 4-byte dimensions inside the buffer, [width] and [height] are read
    at the cursor without moving it, the record size is
    [4 + 4 + 10 * width * height], the bytes from the cursor up to that size
    are handed to [_parse_layer], which reads the same dimensions again,
    this sub-buffer has exactly the record size, and the cursor moves
    forward by exactly the record size. *)
Theorem layer_iteration_consumes_record (file_string : bytes)
    (reverse_endian : bool) (st st' : Framer.state) :
  layer_iteration file_string reverse_endian st = OK st' ->
  0 <= Framer.offset st ->
  Framer.offset st + 8 <= buffer_length file_string ->
  let o := Framer.offset st in
  let w := field_value reverse_endian (slice file_string o (o + 4)) in
  let h := field_value reverse_endian (slice file_string (o + 4) (o + 8)) in
  let size := 4 + 4 + 10 * w * h in
  size = layer_width_bytes + layer_height_bytes + layer_cell_bytes * w * h
  /\ exists L,
       _parse_layer (slice file_string o (o + size)) reverse_endian = OK L
       /\ buffer_length (slice file_string o (o + size)) = size
       /\ Layer.width L = w /\ Layer.height L = h
       /\ Framer.layers st' = Framer.layers st ++ [L]
       /\ Framer.offset st' = o + size.
Proof.
  intros H Ho Hhdr. cbv zeta. split; [reflexivity|].
  apply layer_iteration_OK in H; [|assumption]. cbv zeta in H.
  destruct H as (L & EL & HW & HH & _ & -> & _ & Hin).
  set (o := Framer.offset st) in *.
  set (w := field_value reverse_endian (slice file_string o (o + 4))) in *.
  set (h := field_value reverse_endian (slice file_string (o + 4) (o + 8))) in *.
  change (4 + 4 + 10 * w * h) with (layer_record_size w h).
  assert (Hw : 0 <= w) by apply field_value_nonneg.
  assert (Hh : 0 <= h) by apply field_value_nonneg.
  pose proof (layer_record_size_min w h Hw Hh) as Hmin.
  assert (Hfit : o + layer_record_size w h <= buffer_length file_string).
  { destruct Hin as [Hz | Hin]; [|exact Hin].
    rewrite layer_record_size_eq, Hz. lia. }
  exists L. cbn [Framer.layers Framer.offset].
  repeat split; try assumption.
  rewrite buffer_length_slice by lia. lia.
Qed.

Lemma layer_iteration_consumes_record_witness :
  0 <= Framer.offset (initial_state 8)
  /\ 8 + 8 <= buffer_length (two_cell_buffer x01 x02 x03 x04)
  /\ buffer_length (slice (two_cell_buffer x01 x02 x03 x04) 8 (8 + 28)) = 28.
Proof.
  assert (Ho : 0 <= Framer.offset (initial_state 8)) by (cbn; lia).
  assert (Hhdr : Framer.offset (initial_state 8) + 8
                 <= buffer_length (two_cell_buffer x01 x02 x03 x04))
    by (vm_compute; discriminate).
  pose proof (layer_iteration_consumes_record
                (two_cell_buffer x01 x02 x03 x04) true (initial_state 8)
                (Framer.mk 36 2 1 [two_cell_layer]) eq_refl Ho Hhdr)
    as (_ & L & _ & Hsize & _).
  split; [exact Ho|]. split; [exact Hhdr | exact Hsize].
Defined.

(** ** Trailing bytes *)

(** C9.  When a buffer holds every byte the decoder asks for, bytes appended
    after it are ignored: the longer buffer decodes to the same document. *)
Theorem trailing_bytes_are_ignored (b : bytes) (reverse_endian : bool) :
  complete_encoding b reverse_endian ->
  forall s : bytes,
  exists d,
    load_xp_string b reverse_endian = OK d
    /\ load_xp_string (b ++ s) reverse_endian = OK d.
Proof.
  intros (v & n & o & st & Eh & El & Hend) s.
  pose proof (load_xp_header_OK _ _ _ _ _ Eh) as (-> & _ & Hv & Hn).
  pose proof (layer_loop_OK _ _ _ _ _ El ltac:(cbn; lia))
    as (_ & _ & _ & _ & _ & _ & _ & Hle).
  cbn [initial_state Framer.offset] in Hle.
  eexists. split; [apply (load_xp_string_complete _ _ _ _ _ _ Eh El)|].
  apply (load_xp_string_complete _ _ v n 8).
  - rewrite load_xp_header_long
      by (unfold buffer_length in *; rewrite length_app; lia).
    unfold buffer_length in Hend.
    rewrite !slice_app_inside by lia. now rewrite <- Hv, <- Hn.
  - apply layer_loop_app; [exact El | cbn; lia | exact Hend].
Qed.

Lemma trailing_bytes_are_ignored_witness :
  complete_encoding (two_cell_buffer x01 x02 x03 x04) true
  /\ exists d,
       load_xp_string (two_cell_buffer x01 x02 x03 x04) true = OK d
       /\ load_xp_string (two_cell_buffer x01 x02 x03 x04 ++ [xff; x00; x07])
            true = OK d.
Proof.
  assert (H : complete_encoding (two_cell_buffer x01 x02 x03 x04) true).
  { exists 0x04030201, 1, 8, (Framer.mk 36 2 1 [two_cell_layer]).
    repeat split. vm_compute. discriminate. }
  split; [exact H | exact (trailing_bytes_are_ignored _ _ H [xff; x00; x07])].
Defined.

(** ** The integer helper *)

(** C10.  On a non-empty byte string [_bytes_to_int] returns the big-endian
    sum of [b[i] * 256^(n-1-i)]; applied to the reversed string, as is done
    when [reverse_endian] is set, it returns the little-endian sum of
    [b[i] * 256^i]. *)
Theorem bytes_to_int_is_big_endian_sum (b : bytes) :
  b <> [] ->
  _bytes_to_int b = OK (be_sum b)
  /\ _bytes_to_int (reverse_if false b) = OK (be_sum b)
  /\ _bytes_to_int (reverse_if true b) = OK (le_sum b).
Proof.
  intros Hne. rewrite be_sum_value, le_sum_value.
  split; [now apply bytes_to_int_nonempty|].
  split; [exact (read_field_nonempty false b Hne)
         | exact (read_field_nonempty true b Hne)].
Qed.

Lemma bytes_to_int_is_big_endian_sum_witness :
  [x01; x02; x03] <> []
  /\ _bytes_to_int [x01; x02; x03] = OK 66051
  /\ _bytes_to_int (reverse_if true [x01; x02; x03]) = OK 197121.
Proof.
  assert (Hne : [x01; x02; x03] <> []) by discriminate.
  pose proof (bytes_to_int_is_big_endian_sum [x01; x02; x03] Hne)
    as (Hbe & _ & Hle).
  split; [exact Hne|]. split; [exact Hbe | exact Hle].
Defined.

(** * Further properties of the decoder *)

(** ** The integer helper *)

Lemma be_value_single x : be_value [x] = byte_val x.
Proof. reflexivity. Qed.

Lemma be_value_zeros k b : be_value (repeat x00 k ++ b) = be_value b.
Proof.
  induction k as [|k IH]; [reflexivity|].
  cbn [repeat app]. rewrite be_value_cons, IH. change (byte_val x00) with 0. lia.
Qed.

Lemma le_value_zeros b k : le_value (b ++ repeat x00 k) = le_value b.
Proof.
  rewrite <- !be_value_rev, rev_app_distr, rev_repeat. apply be_value_zeros.
Qed.

(** X1.  [_bytes_to_int] raises [ValueError] on the empty byte string and
    on no other. *)
Theorem bytes_to_int_raises_iff_empty (b : bytes) :
  _bytes_to_int b = Raise ValueError <-> b = [].
Proof.
  split; [apply bytes_to_int_Raise | intros ->; apply bytes_to_int_nil].
Qed.

(** X2.  The number [_bytes_to_int] returns for [n] bytes is at least 0 and
    below [256^n]. *)
Theorem bytes_to_int_range (b : bytes) (v : Z) :
  _bytes_to_int b = OK v -> 0 <= v < 256 ^ Z.of_nat (length b).
Proof.
  intros H. apply bytes_to_int_OK in H. destruct H as [_ ->].
  apply be_value_range.
Qed.

Lemma bytes_to_int_range_witness :
  0 <= 258 < 256 ^ Z.of_nat (length [x01; x02]).
Proof. exact (bytes_to_int_range [x01; x02] 258 eq_refl). Defined.

(** X3.  Two byte strings of the same length on which [_bytes_to_int]
    returns the same number are equal. *)
Theorem bytes_to_int_injective (a b : bytes) (v : Z) :
  length a = length b ->
  _bytes_to_int a = OK v -> _bytes_to_int b = OK v -> a = b.
Proof.
  intros Hlen Ha Hb. apply bytes_to_int_OK in Ha, Hb.
  destruct Ha as [_ ->], Hb as [_ Hb]. now apply be_value_inj.
Qed.

Lemma bytes_to_int_injective_witness :
  _bytes_to_int [x01; x02] = OK 258 /\ [x01; x02] = [x01; x02].
Proof.
  split; [reflexivity|].
  exact (bytes_to_int_injective [x01; x02] [x01; x02] 258 eq_refl eq_refl
           eq_refl).
Defined.

(** X4.  Zero bytes in front of a non-empty byte string do not change the
    number; hence, when the bytes are reversed first, zero bytes at the end
    do not either. *)
Theorem bytes_to_int_ignores_leading_zeros (b : bytes) (k : nat) :
  b <> [] ->
  _bytes_to_int (repeat x00 k ++ b) = _bytes_to_int b
  /\ _bytes_to_int (reverse_if true (b ++ repeat x00 k))
     = _bytes_to_int (reverse_if true b).
Proof.
  intros Hne.
  assert (H1 : repeat x00 k ++ b <> []).
  { intros H. apply app_eq_nil in H. tauto. }
  assert (H2 : b ++ repeat x00 k <> []).
  { intros H. apply app_eq_nil in H. tauto. }
  split.
  - rewrite !bytes_to_int_nonempty by assumption. now rewrite be_value_zeros.
  - rewrite !read_field_nonempty by assumption. cbn [field_value].
    now rewrite le_value_zeros.
Qed.

Lemma bytes_to_int_ignores_leading_zeros_witness :
  [x07] <> []
  /\ _bytes_to_int (repeat x00 3 ++ [x07]) = _bytes_to_int [x07]
  /\ _bytes_to_int (reverse_if true ([x07] ++ repeat x00 3))
     = _bytes_to_int (reverse_if true [x07]).
Proof.
  assert (Hne : [x07] <> []) by discriminate.
  split; [exact Hne | exact (bytes_to_int_ignores_leading_zeros [x07] 3 Hne)].
Defined.

(** ** The cell decoder *)

Lemma firstn_one_skipn {A : Type} (d : A) n : forall s : list A,
  (n < length s)%nat -> firstn 1 (skipn n s) = [nth n s d].
Proof.
  induction n as [|n IH]; intros [|a s] H; cbn [length] in H; try lia.
  - reflexivity.
  - cbn [skipn nth]. apply IH. lia.
Qed.

Lemma slice_single (s : bytes) i :
  (i < length s)%nat ->
  slice s (Z.of_nat i) (Z.of_nat i + 1) = [nth i s x00].
Proof.
  intros H. rewrite slice_nonneg by lia.
  replace (Z.to_nat (Z.of_nat i + 1) - Z.to_nat (Z.of_nat i))%nat with 1%nat
    by lia.
  rewrite Nat2Z.id. now apply firstn_one_skipn.
Qed.

Lemma read_byte (s : bytes) i :
  (i < length s)%nat ->
  _bytes_to_int (slice s (Z.of_nat i) (Z.of_nat i + 1)) = OK (byte_at s i).
Proof.
  intros H. rewrite slice_single by assumption. now rewrite bytes_to_int_cons.
Qed.

(** A record of at least ten bytes is decoded to the cell it stands for. *)
Lemma parse_cell_long cs re :
  10 <= buffer_length cs ->
  _parse_individual_cell cs re = OK (cell_of_record re cs).
Proof.
  unfold buffer_length. intros H. rewrite parse_cell_unfold.
  rewrite read_field_nonempty by (rewrite slice_empty_iff; lia).
  cbn [bind].
  assert (H4 : _bytes_to_int (slice cs 4 5) = OK (byte_at cs 4))
    by (apply (read_byte cs 4); lia).
  assert (H5 : _bytes_to_int (slice cs 5 6) = OK (byte_at cs 5))
    by (apply (read_byte cs 5); lia).
  assert (H6 : _bytes_to_int (slice cs 6 7) = OK (byte_at cs 6))
    by (apply (read_byte cs 6); lia).
  assert (H7 : _bytes_to_int (slice cs 7 8) = OK (byte_at cs 7))
    by (apply (read_byte cs 7); lia).
  assert (H8 : _bytes_to_int (slice cs 8 9) = OK (byte_at cs 8))
    by (apply (read_byte cs 8); lia).
  assert (H9 : _bytes_to_int (slice cs 9 10) = OK (byte_at cs 9))
    by (apply (read_byte cs 9); lia).
  now rewrite H4, H5, H6, H7, H8, H9.
Qed.

Lemma byte_at_range s i : 0 <= byte_at s i <= 255.
Proof. unfold byte_at. pose proof (byte_val_range (nth i s x00)). lia. Qed.

Lemma length_slice_le (s : bytes) lo hi :
  0 <= lo -> 0 <= hi -> Z.of_nat (length (slice s lo hi)) <= Z.max 0 (hi - lo).
Proof. intros. rewrite length_slice by assumption. lia. Qed.

Lemma field_value_range_32 re (s : bytes) lo :
  0 <= lo -> 0 <= field_value re (slice s lo (lo + 4)) < 2 ^ 32.
Proof.
  intros Hlo. pose proof (field_value_range re (slice s lo (lo + 4))) as Hr.
  pose proof (length_slice_le s lo (lo + 4) Hlo ltac:(lia)) as Hl.
  assert (256 ^ Z.of_nat (length (slice s lo (lo + 4))) <= 256 ^ 4)
    by (apply Z.pow_le_mono_r; lia).
  change (2 ^ 32) with (256 ^ 4). lia.
Qed.

Lemma cell_of_record_in_range re cs : cell_in_range (cell_of_record re cs).
Proof.
  unfold cell_in_range, cell_of_record.
  cbn [Cell.keycode Cell.fore_r Cell.fore_g Cell.fore_b Cell.back_r
         Cell.back_g Cell.back_b].
  split; [apply (field_value_range_32 re cs 0); lia|].
  repeat split; apply byte_at_range.
Qed.

(** X5.  [_parse_individual_cell] returns a cell exactly when it is given at
    least ten bytes, and the cell has the keycode of bytes 0-3 and the six
    colour components of bytes 4 to 9; on fewer than ten bytes it raises. *)
Theorem parse_cell_succeeds_iff_ten_bytes (cell_string : bytes)
    (reverse_endian : bool) (c : Cell.t) :
  (_parse_individual_cell cell_string reverse_endian = OK c
   <-> 10 <= buffer_length cell_string
       /\ c = cell_of_record reverse_endian cell_string)
  /\ (_parse_individual_cell cell_string reverse_endian = Raise ValueError
      <-> buffer_length cell_string < 10).
Proof.
  split; split.
  - intros H. pose proof (parse_cell_OK _ _ _ H) as [Hlen _].
    rewrite parse_cell_long in H by assumption. injection H as <-. now split.
  - intros [Hlen ->]. now apply parse_cell_long.
  - intros H. destruct (Z_lt_le_dec (buffer_length cell_string) 10) as [?|Hl];
      [assumption|].
    rewrite parse_cell_long in H by assumption. discriminate.
  - intros H.
    destruct (result_cases (_parse_individual_cell cell_string reverse_endian))
      as [[c' E] | E]; [|exact E].
    apply parse_cell_OK in E. lia.
Qed.

(** X6.  The colour components of a decoded cell lie between 0 and 255, the
    keycode lies below [2^32], and the byte-order flag changes nothing but
    the keycode. *)
Theorem parse_cell_colours (cell_string : bytes) (c c' : Cell.t) :
  _parse_individual_cell cell_string true = OK c ->
  _parse_individual_cell cell_string false = OK c' ->
  cell_in_range c /\ cell_in_range c'
  /\ Cell.fore_r c = Cell.fore_r c' /\ Cell.fore_g c = Cell.fore_g c'
  /\ Cell.fore_b c = Cell.fore_b c' /\ Cell.back_r c = Cell.back_r c'
  /\ Cell.back_g c = Cell.back_g c' /\ Cell.back_b c = Cell.back_b c'.
Proof.
  intros H H'. pose proof (parse_cell_OK _ _ _ H) as [Hlen _].
  rewrite parse_cell_long in H, H' by assumption.
  injection H as <-. injection H' as <-.
  split; [apply cell_of_record_in_range|].
  split; [apply cell_of_record_in_range|]. repeat split.
Qed.

Lemma parse_cell_colours_witness :
  cell_in_range (decoded_sample_cell 65)
  /\ Cell.fore_r (decoded_sample_cell 65)
     = Cell.fore_r (Cell.mk 0x41000000 252 252 252 0 0 0).
Proof.
  pose proof (parse_cell_colours (sample_cell 65) (decoded_sample_cell 65)
                (Cell.mk 0x41000000 252 252 252 0 0 0) eq_refl eq_refl)
    as (Hr & _ & Hf & _).
  split; [exact Hr | exact Hf].
Defined.

Lemma firstn_add {A : Type} a b : forall l : list A,
  firstn (a + b) l = firstn a l ++ firstn b (skipn a l).
Proof.
  induction a as [|a IH]; intros [|x l]; cbn [Nat.add firstn skipn app];
    try reflexivity.
  - now rewrite firstn_nil.
  - now rewrite IH.
Qed.

(** A slice can be cut in two at any point between its bounds. *)
Lemma slice_split {A : Type} (s : list A) lo mid hi :
  0 <= lo -> lo <= mid -> mid <= hi ->
  slice s lo hi = slice s lo mid ++ slice s mid hi.
Proof.
  intros. rewrite !slice_nonneg by lia.
  replace (Z.to_nat hi - Z.to_nat lo)%nat
    with ((Z.to_nat mid - Z.to_nat lo) + (Z.to_nat hi - Z.to_nat mid))%nat
    by lia.
  rewrite firstn_add, skipn_skipn. do 3 f_equal. lia.
Qed.

Lemma slice_all {A : Type} (s : list A) :
  slice s 0 (Z.of_nat (length s)) = s.
Proof.
  rewrite slice_nonneg by lia. cbn [Z.to_nat skipn].
  rewrite Nat.sub_0_r, Nat2Z.id. apply firstn_all.
Qed.

Lemma field_value_inj re a b :
  length a = length b -> field_value re a = field_value re b -> a = b.
Proof.
  destruct re; cbn [field_value]; [apply le_value_inj | apply be_value_inj].
Qed.

Lemma slice_byte (s : bytes) (i : nat) (lo hi : Z) :
  lo = Z.of_nat i -> hi = lo + 1 -> (i < length s)%nat ->
  slice s lo hi = [nth i s x00].
Proof. intros -> -> H. now apply slice_single. Qed.

(** X7.  A decoded cell has the transparent background colour
    (255, 0, 255) exactly when bytes 7, 8 and 9 of its record are
    [FF 00 FF]. *)
Theorem transparent_background_iff (cell_string : bytes)
    (reverse_endian : bool) (c : Cell.t) :
  _parse_individual_cell cell_string reverse_endian = OK c ->
  (Cell.back_r c = transparent_cell_back_r
   /\ Cell.back_g c = transparent_cell_back_g
   /\ Cell.back_b c = transparent_cell_back_b)
  <-> slice cell_string 7 10 = [xff; x00; xff].
Proof.
  intros H. pose proof (parse_cell_OK _ _ _ H) as [Hlen _].
  rewrite parse_cell_long in H by assumption. injection H as <-.
  unfold buffer_length in Hlen.
  rewrite (slice_split cell_string 7 8 10), (slice_split cell_string 8 9 10)
    by lia.
  rewrite (slice_byte cell_string 7 7 8), (slice_byte cell_string 8 8 9),
    (slice_byte cell_string 9 9 10) by lia.
  unfold cell_of_record, byte_at, transparent_cell_back_r,
    transparent_cell_back_g, transparent_cell_back_b.
  cbn [Cell.back_r Cell.back_g Cell.back_b app].
  split.
  - intros (Hr & Hg & Hb).
    rewrite (byte_val_inj _ xff Hr), (byte_val_inj _ x00 Hg),
      (byte_val_inj _ xff Hb). reflexivity.
  - intros [= -> -> ->]. repeat split.
Qed.

Lemma transparent_background_iff_witness :
  (Cell.back_r (Cell.mk 32 252 252 252 255 0 255) = transparent_cell_back_r
   /\ Cell.back_g (Cell.mk 32 252 252 252 255 0 255) = transparent_cell_back_g
   /\ Cell.back_b (Cell.mk 32 252 252 252 255 0 255) = transparent_cell_back_b)
  <-> slice (le32 32 ++ [xfc; xfc; xfc; xff; x00; xff]) 7 10 = [xff; x00; xff].
Proof.
  exact (transparent_background_iff (le32 32 ++ [xfc; xfc; xfc; xff; x00; xff])
           true (Cell.mk 32 252 252 252 255 0 255) eq_refl).
Defined.

Lemma cell_of_record_inj re (a b : bytes) :
  length a = 10%nat -> length b = 10%nat ->
  cell_of_record re a = cell_of_record re b -> a = b.
Proof.
  intros Ha Hb Heq. injection Heq as Hk H4 H5 H6 H7 H8 H9.
  apply field_value_inj in Hk; [|rewrite !length_slice; lia].
  unfold byte_at in *.
  apply byte_val_inj in H4, H5, H6, H7, H8, H9.
  rewrite <- (slice_all a), <- (slice_all b), Ha, Hb.
  change (Z.of_nat 10) with 10.
  rewrite (slice_split a 0 4 _), (slice_split b 0 4 _) by lia.
  rewrite (slice_split a 4 5 _), (slice_split b 4 5 _) by lia.
  rewrite (slice_split a 5 6 _), (slice_split b 5 6 _) by lia.
  rewrite (slice_split a 6 7 _), (slice_split b 6 7 _) by lia.
  rewrite (slice_split a 7 8 _), (slice_split b 7 8 _) by lia.
  rewrite (slice_split a 8 9 _), (slice_split b 8 9 _) by lia.
  rewrite (slice_byte a 4 4 5), (slice_byte a 5 5 6), (slice_byte a 6 6 7),
    (slice_byte a 7 7 8), (slice_byte a 8 8 9), (slice_byte a 9 9 10) by lia.
  rewrite (slice_byte b 4 4 5), (slice_byte b 5 5 6), (slice_byte b 6 6 7),
    (slice_byte b 7 7 8), (slice_byte b 8 8 9), (slice_byte b 9 9 10) by lia.
  now rewrite Hk, H4, H5, H6, H7, H8, H9.
Qed.

(** X8.  On records of exactly ten bytes the cell decoder loses nothing:
    two records that decode to the same cell are the same bytes. *)
Theorem parse_cell_injective (a b : bytes) (reverse_endian : bool)
    (c : Cell.t) :
  length a = 10%nat -> length b = 10%nat ->
  _parse_individual_cell a reverse_endian = OK c ->
  _parse_individual_cell b reverse_endian = OK c ->
  a = b.
Proof.
  intros Ha Hb Hpa Hpb.
  rewrite parse_cell_long in Hpa, Hpb by (unfold buffer_length; lia).
  apply (cell_of_record_inj reverse_endian); [assumption | assumption|].
  congruence.
Qed.

Lemma parse_cell_injective_witness :
  length (sample_cell 65) = 10%nat
  /\ _parse_individual_cell (sample_cell 65) true = OK (decoded_sample_cell 65)
  /\ sample_cell 65 = sample_cell 65.
Proof.
  split; [reflexivity|]. split; [reflexivity|].
  exact (parse_cell_injective (sample_cell 65) (sample_cell 65) true
           (decoded_sample_cell 65) eq_refl eq_refl eq_refl eq_refl).
Defined.

(** ** The layer parser *)

Lemma row_loop_long n ls re : forall row o,
  0 <= o -> (n = 0%nat \/ o + 10 * Z.of_nat n <= buffer_length ls) ->
  row_loop n ls re row o
  = OK (row ++ map (fun y =>
                      cell_of_record re
                        (slice ls (o + 10 * Z.of_nat y)
                           (o + 10 * Z.of_nat y + 10)))
                 (seq 0 n),
        o + 10 * Z.of_nat n).
Proof.
  induction n as [|n IH]; intros row o Ho Hfit.
  - cbn [row_loop seq map]. now rewrite app_nil_r, Z.add_0_r.
  - destruct Hfit as [Hfit | Hfit]; [discriminate|].
    cbn [row_loop]. change layer_cell_bytes with 10.
    rewrite parse_cell_long by (rewrite buffer_length_slice; lia).
    cbn [bind]. rewrite IH; [|lia|right; lia].
    rewrite <- app_assoc. cbn [app seq map]. rewrite <- seq_shift, map_map.
    apply f_equal. apply f_equal2; [|lia]. apply f_equal.
    apply f_equal2.
    + f_equal; f_equal; lia.
    + apply map_ext. intros y. f_equal; f_equal; lia.
Qed.

Lemma cells_loop_long n h ls re : forall cells o,
  0 <= o -> 0 <= h ->
  (n = 0%nat \/ h = 0 \/ o + 10 * Z.of_nat n * h <= buffer_length ls) ->
  cells_loop n h ls re cells o
  = OK (cells ++ map (fun x =>
                        map (fun y =>
                               let pos :=
                                 o + 10 * (Z.of_nat x * h + Z.of_nat y) in
                               cell_of_record re (slice ls pos (pos + 10)))
                          (seq 0 (Z.to_nat h)))
                   (seq 0 n),
        o + 10 * Z.of_nat n * h).
Proof.
  induction n as [|n IH]; intros cells o Ho Hh Hfit.
  - cbn [cells_loop seq map]. rewrite app_nil_r. do 2 f_equal. lia.
  - cbn [cells_loop]. rewrite row_loop_long; [|assumption|].
    + cbn [bind fst snd app]. rewrite IH; [|lia|assumption|].
      * rewrite <- app_assoc. cbn [app seq map].
        rewrite <- seq_shift, map_map.
        apply f_equal. apply f_equal2; [|lia]. apply f_equal.
        apply f_equal2.
        -- apply map_ext. intros y. cbv zeta. f_equal; f_equal; lia.
        -- apply map_ext. intros x. apply map_ext. intros y. cbv zeta.
           f_equal; f_equal; lia.
      * destruct Hfit as [Hfit | [Hfit | Hfit]];
          [discriminate | now right; left|].
        destruct n as [|n']; [now left|]. right; right. nia.
    + destruct Hfit as [Hfit | [Hfit | Hfit]]; [discriminate | left; lia|].
      right. nia.
Qed.

(** A layer record that holds its dimensions and, when it has cells, all of
    them, is decoded to the layer it stands for. *)
Lemma parse_layer_long ls re :
  let w := field_value re (slice ls 0 4) in
  let h := field_value re (slice ls 4 8) in
  4 < buffer_length ls ->
  (w * h = 0 \/ layer_record_size w h <= buffer_length ls) ->
  _parse_layer ls re = OK (Layer.mk w h (grid_of_record re ls w h)).
Proof.
  cbv zeta. intros Hlen Hfit. unfold buffer_length in Hlen.
  rewrite parse_layer_unfold.
  rewrite !read_field_nonempty by (rewrite slice_empty_iff; lia).
  cbn [bind].
  set (w := field_value re (slice ls 0 4)) in *.
  set (h := field_value re (slice ls 4 8)) in *.
  assert (Hw : 0 <= w) by apply field_value_nonneg.
  assert (Hh : 0 <= h) by apply field_value_nonneg.
  rewrite cells_loop_long; [reflexivity | lia | assumption |].
  rewrite layer_record_size_eq in Hfit.
  destruct Hfit as [Hfit | Hfit].
  - apply Z.mul_eq_0 in Hfit. destruct Hfit; [left; lia | now right; left].
  - right; right. rewrite Z2Nat.id by assumption. lia.
Qed.

(** X9.  [_parse_layer] returns a layer exactly when the record holds more
    than the four bytes of [width] and, unless [width * height] is 0, all
    of its [8 + 10 * width * height] bytes; the layer then has the two
    dimensions and the grid read off the record. *)
Theorem parse_layer_succeeds_iff (layer_string : bytes)
    (reverse_endian : bool) (L : Layer.t) :
  let w := field_value reverse_endian (slice layer_string 0 4) in
  let h := field_value reverse_endian (slice layer_string 4 8) in
  _parse_layer layer_string reverse_endian = OK L
  <-> 4 < buffer_length layer_string
      /\ (w * h = 0 \/ layer_record_size w h <= buffer_length layer_string)
      /\ L = Layer.mk w h (grid_of_record reverse_endian layer_string w h).
Proof.
  cbv zeta. split.
  - intros H. pose proof (parse_layer_OK _ _ _ H) as (Hlen & Hw & Hh & _ & Hfit).
    rewrite Hw, Hh in Hfit.
    rewrite parse_layer_long in H by assumption. injection H as <-.
    repeat split; assumption.
  - intros (Hlen & Hfit & ->). now apply parse_layer_long.
Qed.

(** X10.  A decoded layer of width 0 has no column, and a decoded layer of
    height 0 has [width] empty columns. *)
Theorem parse_layer_empty_grid (layer_string : bytes) (reverse_endian : bool)
    (L : Layer.t) :
  _parse_layer layer_string reverse_endian = OK L ->
  (Layer.width L = 0 -> Layer.cells L = [])
  /\ (Layer.height L = 0 ->
      Layer.cells L = repeat [] (Z.to_nat (Layer.width L))).
Proof.
  intros H. apply parse_layer_OK in H. destruct H as (_ & _ & _ & [Hn Hc] & _).
  split.
  - intros Hz. rewrite Hz in Hn. apply length_zero_iff_nil. lia.
  - intros Hz. rewrite <- Hn, Nat2Z.id.
    apply Forall_eq_repeat. eapply Forall_impl; [|exact Hc].
    cbn beta. intros column Hl. symmetry. apply length_zero_iff_nil. lia.
Qed.

Lemma parse_layer_empty_grid_witness :
  Layer.cells (Layer.mk 3 0 [[]; []; []]) = repeat [] (Z.to_nat 3).
Proof.
  exact (proj2 (parse_layer_empty_grid (le32 3 ++ le32 0) true
                  (Layer.mk 3 0 [[]; []; []]) eq_refl) eq_refl).
Defined.

Lemma cells_are_stored_by_column_witness :
  _parse_individual_cell (slice two_cell_layer_record 18 28) true
  = OK (decoded_sample_cell 66).
Proof.
  exact (cells_are_stored_by_column two_cell_layer_record true two_cell_layer
           1 0 [decoded_sample_cell 66] (decoded_sample_cell 66)
           eq_refl eq_refl eq_refl).
Defined.

(** ** The layers of a document *)

Lemma fold_max_bound M l : forall a,
  a < M -> Forall (fun x => x < M) l -> fold_left Z.max l a < M.
Proof.
  induction l as [|x l IH]; intros a Ha Hl; [exact Ha|].
  cbn [fold_left]. inversion Hl; subst. apply IH; [lia | assumption].
Qed.

Lemma parse_layer_in_range ls re L :
  _parse_layer ls re = OK L -> layer_in_range L.
Proof.
  intros H. pose proof (parse_layer_OK _ _ _ H) as (Hlen & Hw & Hh & _ & Hfit).
  rewrite Hw, Hh in Hfit. rewrite parse_layer_long in H by assumption.
  injection H as <-. unfold layer_in_range.
  cbn [Layer.width Layer.height Layer.cells].
  split; [apply (field_value_range_32 re ls 0); lia|].
  split; [apply (field_value_range_32 re ls 4); lia|].
  unfold grid_of_record. rewrite Forall_map. apply Forall_forall.
  intros x _. rewrite Forall_map. apply Forall_forall. intros y _.
  apply cell_of_record_in_range.
Qed.

(** X11.  The layers of a decoded document are in file order: layer number
    [k] is what [_parse_layer] returns on the bytes that start after the
    header and the records of the layers before it and that span its own
    record size. *)
Theorem layers_are_in_file_order (file_string : bytes)
    (reverse_endian : bool) (d : Document.t) (k : nat) (L : Layer.t) :
  load_xp_string file_string reverse_endian = OK d ->
  nth_error (Document.layer_data d) k = Some L ->
  let o := layer_offset (Document.layer_data d) k in
  _parse_layer
    (slice file_string o
       (o + layer_record_size (Layer.width L) (Layer.height L)))
    reverse_endian
  = OK L.
Proof.
  intros H Hk. apply load_xp_string_OK in H.
  destruct H as (st & _ & El & _ & _ & Hd).
  apply layer_loop_records in El; [|cbn; lia].
  destruct El as (new & Hl & _ & _ & Hnew).
  cbn [initial_state Framer.layers Framer.offset app] in Hl, Hnew.
  rewrite Hd, Hl in *. exact (Hnew k L Hk).
Qed.

Lemma layers_are_in_file_order_witness :
  _parse_layer (slice (two_cell_buffer x01 x02 x03 x04) 8 (8 + 28)) true
  = OK two_cell_layer.
Proof.
  exact (layers_are_in_file_order (two_cell_buffer x01 x02 x03 x04) true _
           0 two_cell_layer eq_refl eq_refl).
Defined.

(** X12.  A decoding that succeeded has read nothing past the end of the
    buffer exactly when the buffer is at least as long as the header plus
    the records of the decoded layers, [8 + sum (8 + 10 * width * height)]. *)
Theorem complete_iff_buffer_holds_records (file_string : bytes)
    (reverse_endian : bool) (d : Document.t) :
  load_xp_string file_string reverse_endian = OK d ->
  complete_encoding file_string reverse_endian
  <-> 8 + records_size (Document.layer_data d) <= buffer_length file_string.
Proof.
  intros H. apply load_xp_string_OK in H.
  destruct H as (st & Eh & El & _ & _ & Hd).
  pose proof (layer_loop_records _ _ _ _ _ El ltac:(cbn; lia))
    as (new & Hl & Hoff & _).
  cbn [initial_state Framer.layers Framer.offset app] in Hl, Hoff.
  rewrite Hd, Hl, <- Hoff. split.
  - intros (v & n & o & st2 & Eh2 & El2 & Hend).
    rewrite Eh in Eh2. injection Eh2 as <- <- <-.
    rewrite El in El2. injection El2 as <-. exact Hend.
  - intros Hend. now exists (Document.version d), (Document.layer_count d), 8, st.
Qed.

Lemma complete_iff_buffer_holds_records_witness :
  complete_encoding cut_layer_header true
  <-> 8 + records_size [Layer.mk 0 0 []] <= buffer_length cut_layer_header.
Proof.
  exact (complete_iff_buffer_holds_records cut_layer_header true _ eq_refl).
Defined.

(** X13.  Every number of a decoded document fits its field: [version],
    [layer_count], the document's and each layer's [width] and [height] and
    each keycode lie in [0, 2^32), each colour component in [0, 255]. *)
Theorem decoded_numbers_are_in_range (file_string : bytes)
    (reverse_endian : bool) (d : Document.t) :
  load_xp_string file_string reverse_endian = OK d ->
  0 <= Document.version d < 2 ^ 32
  /\ 0 <= Document.layer_count d < 2 ^ 32
  /\ 0 <= Document.width d < 2 ^ 32
  /\ 0 <= Document.height d < 2 ^ 32
  /\ Forall layer_in_range (Document.layer_data d).
Proof.
  intros H. pose proof (load_xp_string_layers _ _ _ H) as (_ & _ & Hpos & Hw & Hh).
  apply load_xp_string_OK in H. destruct H as (st & Eh & El & _ & _ & Hd).
  apply load_xp_header_OK in Eh. destruct Eh as (_ & _ & Hv & Hn).
  apply layer_loop_records in El; [|cbn; lia].
  destruct El as (new & Hl & _ & _ & Hnew).
  cbn [initial_state Framer.layers Framer.offset app] in Hl, Hnew.
  rewrite <- Hd in Hl.
  assert (Hrange : Forall layer_in_range (Document.layer_data d)).
  { rewrite Hl. apply Forall_forall. intros L HL.
    apply In_nth_error in HL. destruct HL as (k & Hk).
    exact (parse_layer_in_range _ _ _ (Hnew k L Hk)). }
  split; [rewrite Hv; apply (field_value_range_32 reverse_endian file_string 0); lia|].
  split; [rewrite Hn; apply (field_value_range_32 reverse_endian file_string 4); lia|].
  split; [|split; [|exact Hrange]].
  - rewrite Hw. split.
    + apply fold_max_nonneg; [lia|]. rewrite Forall_map.
      eapply Forall_impl; [|exact Hpos]. cbn. tauto.
    + apply fold_max_bound; [lia|]. rewrite Forall_map.
      eapply Forall_impl; [|exact Hrange]. unfold layer_in_range. cbn. tauto.
  - rewrite Hh. split.
    + apply fold_max_nonneg; [lia|]. rewrite Forall_map.
      eapply Forall_impl; [|exact Hpos]. cbn. tauto.
    + apply fold_max_bound; [lia|]. rewrite Forall_map.
      eapply Forall_impl; [|exact Hrange]. unfold layer_in_range. cbn. tauto.
Qed.

Lemma decoded_numbers_are_in_range_witness :
  0 <= 0x04030201 < 2 ^ 32 /\ Forall layer_in_range [two_cell_layer].
Proof.
  pose proof (decoded_numbers_are_in_range (two_cell_buffer x01 x02 x03 x04)
                true _ eq_refl) as (Hv & _ & _ & _ & Hl).
  split; [exact Hv | exact Hl].
Defined.

(** ** Buffers of five to twelve bytes *)





(** ** From a document back to a buffer *)

Lemma byte_val_byte_of_Z z : 0 <= z <= 255 -> byte_val (byte_of_Z z) = z.
Proof.
  intros Hz. unfold byte_of_Z, byte_val.
  destruct (Byte.of_N (Z.to_N z)) as [b|] eqn:E.
  - apply Byte.to_of_N in E. rewrite E. lia.
  - apply Byte.of_N_None_iff in E. lia.
Qed.

Lemma le32_field_bytes n : le32 n = field_bytes n.
Proof.
  unfold le32, field_bytes, byte_of_Z. cbn [map].
  pose proof (Z.mod_pos_bound n 256 ltac:(lia)).
  pose proof (Z.mod_pos_bound (n / 256) 256 ltac:(lia)).
  pose proof (Z.mod_pos_bound (n / 65536) 256 ltac:(lia)).
  pose proof (Z.mod_pos_bound (n / 16777216) 256 ltac:(lia)).
  destruct (Byte.of_N (Z.to_N (n mod 256))) eqn:E0;
    [|apply Byte.of_N_None_iff in E0; lia].
  destruct (Byte.of_N (Z.to_N ((n / 256) mod 256))) eqn:E1;
    [|apply Byte.of_N_None_iff in E1; lia].
  destruct (Byte.of_N (Z.to_N ((n / 65536) mod 256))) eqn:E2;
    [|apply Byte.of_N_None_iff in E2; lia].
  destruct (Byte.of_N (Z.to_N ((n / 16777216) mod 256))) eqn:E3;
    [|apply Byte.of_N_None_iff in E3; lia].
  reflexivity.
Qed.

Lemma length_field_bytes n : length (field_bytes n) = 4%nat.
Proof. reflexivity. Qed.

Lemma le_value_field_bytes n : 0 <= n < 2 ^ 32 -> le_value (field_bytes n) = n.
Proof.
  intros Hn. unfold field_bytes, le_value. cbn [map fold_right].
  pose proof (Z.mod_pos_bound n 256 ltac:(lia)).
  pose proof (Z.mod_pos_bound (n / 256) 256 ltac:(lia)).
  pose proof (Z.mod_pos_bound (n / 65536) 256 ltac:(lia)).
  pose proof (Z.mod_pos_bound (n / 16777216) 256 ltac:(lia)).
  rewrite !byte_val_byte_of_Z by lia.
  change 65536 with (256 * 256). change 16777216 with (256 * 256 * 256).
  rewrite <- !Z.div_div by lia.
  pose proof (Z.div_mod n 256 ltac:(lia)).
  pose proof (Z.div_mod (n / 256) 256 ltac:(lia)).
  pose proof (Z.div_mod (n / 256 / 256) 256 ltac:(lia)).
  assert (n / 256 / 256 / 256 < 256).
  { rewrite !Z.div_div by lia. apply Z.div_lt_upper_bound; lia. }
  assert (0 <= n / 256 / 256 / 256) by (repeat apply Z.div_pos; lia).
  rewrite (Z.mod_small (n / 256 / 256 / 256)) by lia. lia.
Qed.

Lemma slice_middle {A : Type} (p m r : list A) lo hi :
  lo = Z.of_nat (length p) -> hi = lo + Z.of_nat (length m) ->
  slice (p ++ m ++ r) lo hi = m.
Proof.
  intros -> ->. rewrite slice_nonneg by lia.
  rewrite skipn_app, Nat2Z.id, skipn_all, Nat.sub_diag. cbn [skipn app].
  replace (Z.to_nat (Z.of_nat (length p) + Z.of_nat (length m)) - length p)%nat
    with (length m) by lia.
  rewrite firstn_app, firstn_all, Nat.sub_diag, firstn_0. apply app_nil_r.
Qed.

Lemma slice_prefix {A : Type} (m r : list A) hi :
  hi = Z.of_nat (length m) -> slice (m ++ r) 0 hi = m.
Proof. intros ->. now apply (slice_middle [] m r). Qed.

Lemma parse_cell_record c :
  cell_in_range c -> _parse_individual_cell (record_of_cell c) true = OK c.
Proof.
  intros (Hk & Hfr & Hfg & Hfb & Hbr & Hbg & Hbb).
  rewrite parse_cell_long by (vm_compute; discriminate).
  unfold cell_of_record. destruct c as [k fr fg fb br bg bb].
  cbn [Cell.keycode Cell.fore_r Cell.fore_g Cell.fore_b Cell.back_r
         Cell.back_g Cell.back_b] in *.
  unfold record_of_cell.
  cbn [Cell.keycode Cell.fore_r Cell.fore_g Cell.fore_b Cell.back_r
         Cell.back_g Cell.back_b].
  rewrite (slice_prefix (field_bytes k) _ 4) by reflexivity.
  cbn [field_value]. rewrite le_value_field_bytes by assumption.
  unfold byte_at.
  rewrite !app_nth2 by (rewrite length_field_bytes; lia).
  rewrite length_field_bytes. cbn [Nat.sub map nth].
  now rewrite !byte_val_byte_of_Z by assumption.
Qed.

Lemma length_record_of_cell c : length (record_of_cell c) = 10%nat.
Proof. reflexivity. Qed.

Lemma length_record_of_column column :
  length (record_of_column column) = (10 * length column)%nat.
Proof.
  unfold record_of_column.
  induction column as [|c column IH]; [reflexivity|].
  cbn [map concat]. rewrite length_app, IH, length_record_of_cell.
  cbn [length]. lia.
Qed.

Lemma length_grid_records h cells :
  Forall (fun column => Z.of_nat (length column) = h) cells ->
  Z.of_nat (length (concat (map record_of_column cells)))
  = 10 * Z.of_nat (length cells) * h.
Proof.
  induction 1 as [|column cells Hc _ IH]; [reflexivity|].
  cbn [map concat length]. rewrite length_app, length_record_of_column.
  rewrite Nat2Z.inj_add, IH. lia.
Qed.

Lemma row_loop_record column : forall p r row,
  Forall cell_in_range column ->
  row_loop (length column) (p ++ record_of_column column ++ r) true row
    (Z.of_nat (length p))
  = OK (row ++ column, Z.of_nat (length p) + 10 * Z.of_nat (length column)).
Proof.
  induction column as [|c column IH]; intros p r row Hall.
  - cbn [length row_loop]. rewrite app_nil_r. do 2 f_equal. lia.
  - inversion Hall as [|? ? Hc Hrest]; subst.
    cbn [length row_loop]. change layer_cell_bytes with 10.
    unfold record_of_column. cbn [map concat]. fold (record_of_column column).
    rewrite <- (app_assoc (record_of_cell c)).
    rewrite (slice_middle p (record_of_cell c)) by reflexivity.
    rewrite parse_cell_record by assumption. cbn [bind].
    rewrite (app_assoc p (record_of_cell c)).
    replace (Z.of_nat (length p) + 10)
      with (Z.of_nat (length (p ++ record_of_cell c)))
      by (rewrite length_app, length_record_of_cell; lia).
    rewrite IH by assumption. rewrite <- app_assoc.
    rewrite length_app, length_record_of_cell. do 2 f_equal. lia.
Qed.

Lemma cells_loop_record h cells : forall p r acc,
  Forall (fun column =>
            Forall cell_in_range column /\ Z.of_nat (length column) = h)
    cells ->
  cells_loop (length cells) h (p ++ concat (map record_of_column cells) ++ r)
    true acc (Z.of_nat (length p))
  = OK (acc ++ cells,
        Z.of_nat (length p) + 10 * Z.of_nat (length cells) * h).
Proof.
  induction cells as [|column cells IH]; intros p r acc Hall.
  - cbn [length cells_loop]. rewrite app_nil_r. do 2 f_equal. lia.
  - inversion Hall as [|? ? [Hc Hlen] Hrest]; subst.
    cbn [length cells_loop map concat]. rewrite Nat2Z.id.
    rewrite <- (app_assoc (record_of_column column)).
    rewrite row_loop_record by assumption. cbn [bind fst snd app].
    rewrite (app_assoc p (record_of_column column)).
    replace (Z.of_nat (length p) + 10 * Z.of_nat (length column))
      with (Z.of_nat (length (p ++ record_of_column column)))
      by (rewrite length_app, length_record_of_column; lia).
    rewrite IH by assumption. rewrite <- app_assoc.
    rewrite length_app, length_record_of_column. do 2 f_equal. lia.
Qed.

Lemma field_bytes_nonempty n : field_bytes n <> [].
Proof. discriminate. Qed.

Lemma read_field_bytes n :
  0 <= n < 2 ^ 32 -> _bytes_to_int (reverse_if true (field_bytes n)) = OK n.
Proof.
  intros Hn. rewrite read_field_nonempty by apply field_bytes_nonempty.
  cbn [field_value]. now rewrite le_value_field_bytes.
Qed.

Lemma length_record_of_layer L :
  well_formed_layer L ->
  buffer_length (record_of_layer L)
  = layer_record_size (Layer.width L) (Layer.height L).
Proof.
  intros [_ [Hw Hh]]. unfold buffer_length, record_of_layer.
  rewrite !length_app, !length_field_bytes, !Nat2Z.inj_add.
  rewrite (length_grid_records _ _ Hh), Hw, layer_record_size_eq. lia.
Qed.

Lemma parse_layer_record L :
  well_formed_layer L -> _parse_layer (record_of_layer L) true = OK L.
Proof.
  intros [(Hw & Hh & Hcells) [Hn Hcols]].
  rewrite parse_layer_unfold. unfold record_of_layer.
  rewrite (slice_prefix (field_bytes (Layer.width L))) by reflexivity.
  rewrite (slice_middle (field_bytes (Layer.width L))
             (field_bytes (Layer.height L))) by reflexivity.
  rewrite !read_field_bytes by assumption. cbn [bind].
  replace (Z.to_nat (Layer.width L)) with (length (Layer.cells L)) by lia.
  rewrite <- (app_nil_r (concat _)).
  rewrite (app_assoc (field_bytes _) (field_bytes _)).
  change 8 with (Z.of_nat (length (field_bytes (Layer.width L)
                                     ++ field_bytes (Layer.height L)))).
  rewrite cells_loop_record.
  - cbn [bind fst app]. now destruct L.
  - rewrite Forall_forall in *. intros column Hin. split; auto.
Qed.

(** An iteration that finds a whole layer record at the cursor. *)
Lemma layer_iteration_long fs re st L :
  let o := Framer.offset st in
  let size := layer_record_size (Layer.width L) (Layer.height L) in
  0 <= o ->
  _parse_layer (slice fs o (o + size)) re = OK L ->
  layer_iteration fs re st
  = OK (Framer.mk (o + size)
          (Z.max (Framer.current_largest_width st) (Layer.width L))
          (Z.max (Framer.current_largest_height st) (Layer.height L))
          (Framer.layers st ++ [L])).
Proof.
  cbv zeta. intros Ho HL.
  pose proof (parse_layer_OK _ _ _ HL) as (Hlen & HW & HH & _ & _).
  assert (Hw : 0 <= Layer.width L) by (rewrite HW; apply field_value_nonneg).
  assert (Hh : 0 <= Layer.height L) by (rewrite HH; apply field_value_nonneg).
  pose proof (layer_record_size_min _ _ Hw Hh) as Hsize.
  rewrite buffer_length_slice in Hlen by lia.
  rewrite slice_slice in HW, HH by lia. rewrite Z.add_0_r in HW.
  rewrite layer_iteration_unfold. cbv zeta.
  rewrite !read_field_nonempty
    by (rewrite slice_empty_iff by lia; unfold buffer_length in Hlen; lia).
  cbn [bind]. rewrite <- HW, <- HH, HL. reflexivity.
Qed.

Lemma layer_loop_record layers : forall p r cw ch acc,
  Forall well_formed_layer layers ->
  layer_loop (length layers) (p ++ concat (map record_of_layer layers) ++ r)
    true (Framer.mk (Z.of_nat (length p)) cw ch acc)
  = OK (Framer.mk (Z.of_nat (length p) + records_size layers)
          (fold_left Z.max (map Layer.width layers) cw)
          (fold_left Z.max (map Layer.height layers) ch)
          (acc ++ layers)).
Proof.
  induction layers as [|L layers IH]; intros p r cw ch acc Hall.
  - cbn [length layer_loop records_size fold_right map fold_left].
    now rewrite app_nil_r, Z.add_0_r.
  - inversion Hall as [|? ? HL Hrest]; subst.
    pose proof (length_record_of_layer L HL) as Hlen.
    unfold buffer_length in Hlen.
    cbn [length layer_loop map concat].
    rewrite <- (app_assoc (record_of_layer L)).
    rewrite (layer_iteration_long _ _ _ L).
    + cbn [bind Framer.offset Framer.current_largest_width
             Framer.current_largest_height Framer.layers].
      rewrite (app_assoc p (record_of_layer L)).
      replace (Z.of_nat (length p)
               + layer_record_size (Layer.width L) (Layer.height L))
        with (Z.of_nat (length (p ++ record_of_layer L)))
        by (rewrite length_app; lia).
      rewrite IH by assumption. rewrite <- app_assoc.
      cbn [records_size fold_right map fold_left app].
      fold (records_size layers). rewrite length_app. do 2 f_equal. lia.
    + cbn [Framer.offset]. lia.
    + cbn [Framer.offset]. rewrite (slice_middle p (record_of_layer L)) by lia.
      now apply parse_layer_record.
Qed.

Lemma load_buffer_of_document (d : Document.t) :
  well_formed_document d ->
  buffer_length (buffer_of_document d)
  = 8 + records_size (Document.layer_data d)
  /\ load_xp_string (buffer_of_document d) true = OK d.
Proof.
  intros (Hv & Hn & Hcount & Hw & Hh & Hlayers).
  destruct d as [v n w h layers].
  cbn [Document.version Document.layer_count Document.width Document.height
         Document.layer_data] in *.
  assert (Hpos : Forall (fun L => 0 <= Layer.width L /\ 0 <= Layer.height L)
                   layers).
  { eapply Forall_impl; [|exact Hlayers]. cbn beta.
    intros L [(HW & HH & _) _]. lia. }
  pose proof (layer_loop_record layers
                (field_bytes v ++ field_bytes n) [] 0 0 [] Hlayers) as Hloop.
  rewrite app_nil_r in Hloop.
  assert (Hsplit : buffer_of_document (Document.mk v n w h layers)
                   = (field_bytes v ++ field_bytes n)
                     ++ concat (map record_of_layer layers)).
  { unfold buffer_of_document.
    cbn [Document.version Document.layer_count Document.layer_data].
    apply app_assoc. }
  split.
  - unfold buffer_length. rewrite Hsplit, length_app. clear Hloop.
    assert (Hsum : Z.of_nat (length (concat (map record_of_layer layers)))
                   = records_size layers).
    { clear Hcount Hw Hh Hpos Hsplit.
      induction Hlayers as [|L layers HL _ IH]; [reflexivity|].
      cbn [map concat records_size fold_right]. fold (records_size layers).
      rewrite length_app, Nat2Z.inj_add, IH.
      pose proof (length_record_of_layer L HL) as Hlen.
      unfold buffer_length in Hlen. lia. }
    rewrite Nat2Z.inj_add, Hsum. reflexivity.
  - unfold load_xp_string.
    rewrite load_xp_header_unfold. unfold buffer_of_document.
    cbn [Document.version Document.layer_count Document.layer_data].
    rewrite (slice_prefix (field_bytes v)) by reflexivity.
    rewrite (slice_middle (field_bytes v) (field_bytes n)) by reflexivity.
    rewrite !read_field_bytes by lia. cbn [bind].
    rewrite Hcount at 1. rewrite Nat2Z.id.
    rewrite app_assoc.
    change (initial_state 8)
      with (Framer.mk (Z.of_nat (length (field_bytes v ++ field_bytes n)))
              0 0 []).
    rewrite Hloop. cbn [bind Framer.current_largest_width
                          Framer.current_largest_height Framer.layers app].
    rewrite !fold_max_zero
      by (rewrite Forall_map; eapply Forall_impl; [|exact Hpos]; cbn; tauto).
    now rewrite <- Hw, <- Hh.
Qed.

(** X16.  Every well-formed document is the decoding of a buffer: written
    out field by field in little-endian order, it takes 8 bytes plus the
    record sizes of its layers, and [load_xp_string] with [reverse_endian]
    set returns the document from it. *)
Theorem decoding_the_buffer_of_a_document (d : Document.t) :
  well_formed_document d ->
  buffer_length (buffer_of_document d)
  = 8 + records_size (Document.layer_data d)
  /\ load_xp_string (buffer_of_document d) true = OK d.
Proof. apply load_buffer_of_document. Qed.

Lemma decoding_the_buffer_of_a_document_witness :
  well_formed_document (Document.mk 0x04030201 1 2 1 [two_cell_layer])
  /\ load_xp_string
       (buffer_of_document (Document.mk 0x04030201 1 2 1 [two_cell_layer]))
       true
     = OK (Document.mk 0x04030201 1 2 1 [two_cell_layer]).
Proof.
  assert (H : well_formed_document
                (Document.mk 0x04030201 1 2 1 [two_cell_layer])).
  { unfold well_formed_document, well_formed_layer, layer_in_range,
      grid_shape, cell_in_range. cbn.
    repeat split; try lia; try reflexivity; repeat constructor; cbn; lia. }
  split; [exact H | exact (proj2 (decoding_the_buffer_of_a_document _ H))].
Defined.

(** X19.  The documents [load_xp_string] can return with [reverse_endian]
    set are exactly the well-formed ones: numbers that fit their fields,
    [layer_count] layers, grids of the layers' dimensions, and the largest
    layer width and height (0 without layers) as the document's. *)
Theorem decoded_documents_are_the_well_formed_ones (d : Document.t) :
  well_formed_document d
  <-> exists file_string, load_xp_string file_string true = OK d.
Proof.
  split.
  - intros H. exists (buffer_of_document d).
    now apply load_buffer_of_document.
  - intros (fs & H).
    pose proof (load_xp_string_layers _ _ _ H) as (Hlen & Hshape & Hpos & Hw & Hh).
    pose proof (load_xp_string_OK _ _ _ H) as (st & Eh & El & _ & _ & Hd).
    apply load_xp_header_OK in Eh. destruct Eh as (_ & _ & Hv & Hn).
    apply layer_loop_records in El; [|cbn; lia].
    destruct El as (new & Hl & _ & _ & Hnew).
    cbn [initial_state Framer.layers Framer.offset app] in Hl, Hnew.
    rewrite <- Hd in Hl.
    pose proof (field_value_range_32 true fs 0 ltac:(lia)) as Rv.
    pose proof (field_value_range_32 true fs 4 ltac:(lia)) as Rn.
    change (4 + 4) with 8 in Rn. change (0 + 4) with 4 in Rv.
    rewrite <- Hv in Rv. rewrite <- Hn in Rn.
    rewrite !fold_max_zero in Hw, Hh
      by (rewrite Forall_map; eapply Forall_impl; [|exact Hpos]; cbn; tauto).
    unfold well_formed_document.
    split; [exact Rv|]. split; [lia|]. split; [lia|].
    split; [exact Hw|]. split; [exact Hh|].
    apply Forall_forall. intros L HL. split.
    + rewrite Hl in HL. apply In_nth_error in HL. destruct HL as (k & Hk).
      exact (parse_layer_in_range _ _ _ (Hnew k L Hk)).
    + rewrite Forall_forall in Hshape. now apply Hshape.
Qed.

(** ** Two buffers with the same decoding *)

(** Two sequences that agree on [n] consecutive chunks of [c] elements
    agree on the whole span. *)
Lemma slice_chunks_ext {A : Type} (a b : list A) o c n :
  0 <= o -> 0 <= c ->
  (forall j, (j < n)%nat ->
     slice a (o + c * Z.of_nat j) (o + c * Z.of_nat j + c)
     = slice b (o + c * Z.of_nat j) (o + c * Z.of_nat j + c)) ->
  slice a o (o + c * Z.of_nat n) = slice b o (o + c * Z.of_nat n).
Proof.
  intros Ho Hc. induction n as [|n IH]; intros H.
  - rewrite !slice_nonneg by lia.
    replace (Z.to_nat (o + c * Z.of_nat 0) - Z.to_nat o)%nat with 0%nat by lia.
    reflexivity.
  - assert (0 <= c * Z.of_nat n) by (apply Z.mul_nonneg_nonneg; lia).
    replace (o + c * Z.of_nat (S n)) with (o + c * Z.of_nat n + c) by lia.
    rewrite (slice_split a o (o + c * Z.of_nat n)),
      (slice_split b o (o + c * Z.of_nat n)) by lia.
    rewrite IH by (intros j Hj; apply H; lia).
    now rewrite (H n) by lia.
Qed.

Lemma layer_record_inj re (a b : bytes) L :
  _parse_layer a re = OK L -> _parse_layer b re = OK L ->
  buffer_length a = layer_record_size (Layer.width L) (Layer.height L) ->
  buffer_length b = layer_record_size (Layer.width L) (Layer.height L) ->
  a = b.
Proof.
  intros Ha Hb La Lb.
  pose proof (parse_layer_OK _ _ _ Ha) as (_ & HWa & HHa & _ & _).
  pose proof (parse_layer_OK _ _ _ Hb) as (_ & HWb & HHb & _ & _).
  assert (Hw : 0 <= Layer.width L) by (rewrite HWa; apply field_value_nonneg).
  assert (Hh : 0 <= Layer.height L) by (rewrite HHa; apply field_value_nonneg).
  pose proof (layer_record_size_min _ _ Hw Hh) as Hsize.
  pose proof (parse_layer_long a re) as Pa. cbv zeta in Pa.
  pose proof (parse_layer_long b re) as Pb. cbv zeta in Pb.
  rewrite <- HWa, <- HHa in Pa. rewrite <- HWb, <- HHb in Pb.
  specialize (Pa ltac:(lia) ltac:(right; lia)).
  specialize (Pb ltac:(lia) ltac:(right; lia)).
  rewrite Ha in Pa. rewrite Hb in Pb.
  assert (Hgrid : grid_of_record re a (Layer.width L) (Layer.height L)
                  = grid_of_record re b (Layer.width L) (Layer.height L))
    by congruence.
  clear Pa Pb Ha Hb.
  set (w := Layer.width L) in *. set (h := Layer.height L) in *.
  rewrite layer_record_size_eq in *. unfold buffer_length in *.
  assert (Hcell : forall x y, (x < Z.to_nat w)%nat -> (y < Z.to_nat h)%nat ->
            slice a (cell_position h x y) (cell_position h x y + 10)
            = slice b (cell_position h x y) (cell_position h x y + 10)).
  { intros x y Hx Hy. unfold grid_of_record in Hgrid.
    pose proof (ext_in_map Hgrid x) as Hcol.
    specialize (Hcol ltac:(apply in_seq; lia)). cbn beta in Hcol.
    pose proof (ext_in_map Hcol y) as Hc.
    specialize (Hc ltac:(apply in_seq; lia)). cbn beta in Hc.
    assert (Hpos : 0 <= cell_position h x y
                   /\ cell_position h x y + 10 <= 8 + 10 * (w * h)).
    { unfold cell_position. split; [nia|].
      assert (Z.of_nat x * h + Z.of_nat y + 1 <= w * h) by nia. lia. }
    apply (cell_of_record_inj re); [| |exact Hc];
      rewrite length_slice by lia; lia. }
  assert (Hcells : slice a 8 (8 + 10 * h * Z.of_nat (Z.to_nat w))
                   = slice b 8 (8 + 10 * h * Z.of_nat (Z.to_nat w))).
  { apply slice_chunks_ext; [lia | lia|]. intros x Hx.
    replace (8 + 10 * h * Z.of_nat x + 10 * h)
      with (8 + 10 * h * Z.of_nat x + 10 * Z.of_nat (Z.to_nat h)) by lia.
    apply slice_chunks_ext; [nia | lia|]. intros y Hy.
    specialize (Hcell x y Hx Hy). unfold cell_position in Hcell.
    replace (8 + 10 * h * Z.of_nat x + 10 * Z.of_nat y)
      with (8 + 10 * (Z.of_nat x * h + Z.of_nat y)) by ring.
    exact Hcell. }
  rewrite Z2Nat.id in Hcells by assumption.
  replace (8 + 10 * h * w) with (8 + 10 * (w * h)) in Hcells by ring.
  rewrite <- (slice_all a), <- (slice_all b), La, Lb.
  rewrite (slice_split a 0 4 _), (slice_split b 0 4 _) by lia.
  rewrite (slice_split a 4 8 _), (slice_split b 4 8 _) by lia.
  rewrite Hcells. f_equal; [|f_equal].
  - apply (field_value_inj re); [rewrite !length_slice; lia | congruence].
  - apply (field_value_inj re); [rewrite !length_slice; lia | congruence].
Qed.

(** X17.  [_parse_layer] loses nothing of a layer record: two records of
    exactly the record size that decode to the same layer are the same
    bytes. *)
Theorem parse_layer_injective (a b : bytes) (reverse_endian : bool)
    (L : Layer.t) :
  _parse_layer a reverse_endian = OK L ->
  _parse_layer b reverse_endian = OK L ->
  buffer_length a = layer_record_size (Layer.width L) (Layer.height L) ->
  buffer_length b = layer_record_size (Layer.width L) (Layer.height L) ->
  a = b.
Proof. apply layer_record_inj. Qed.

Lemma parse_layer_injective_witness :
  buffer_length two_cell_layer_record
  = layer_record_size (Layer.width two_cell_layer) (Layer.height two_cell_layer)
  /\ two_cell_layer_record = two_cell_layer_record.
Proof.
  split; [reflexivity|].
  exact (parse_layer_injective two_cell_layer_record two_cell_layer_record
           true two_cell_layer eq_refl eq_refl eq_refl eq_refl).
Defined.

Lemma layer_loop_inj n re b1 b2 : forall st st',
  layer_loop n b1 re st = OK st' -> layer_loop n b2 re st = OK st' ->
  0 <= Framer.offset st ->
  Framer.offset st' <= buffer_length b1 ->
  Framer.offset st' <= buffer_length b2 ->
  slice b1 (Framer.offset st) (Framer.offset st')
  = slice b2 (Framer.offset st) (Framer.offset st').
Proof.
  induction n as [|n IH]; intros st st' H1 H2 Ho Hl1 Hl2.
  - injection H1 as <-. rewrite !slice_nonneg by lia.
    now rewrite !Nat.sub_diag.
  - cbn [layer_loop] in H1, H2.
    apply bind_OK in H1. destruct H1 as (s1 & E1 & H1).
    apply bind_OK in H2. destruct H2 as (s2 & E2 & H2).
    apply layer_iteration_OK in E1; [|assumption]. cbv zeta in E1.
    apply layer_iteration_OK in E2; [|assumption]. cbv zeta in E2.
    destruct E1 as (L1 & P1 & HW1 & HH1 & _ & -> & _ & _).
    destruct E2 as (L2 & P2 & HW2 & HH2 & _ & -> & _ & _).
    rewrite <- HW1, <- HH1 in *. rewrite <- HW2, <- HH2 in *.
    assert (Hw1 : 0 <= Layer.width L1) by (rewrite HW1; apply field_value_nonneg).
    assert (Hh1 : 0 <= Layer.height L1) by (rewrite HH1; apply field_value_nonneg).
    assert (Hw2 : 0 <= Layer.width L2) by (rewrite HW2; apply field_value_nonneg).
    assert (Hh2 : 0 <= Layer.height L2) by (rewrite HH2; apply field_value_nonneg).
    pose proof (layer_record_size_min _ _ Hw1 Hh1) as Hs1.
    pose proof (layer_record_size_min _ _ Hw2 Hh2) as Hs2.
    pose proof (layer_loop_OK _ _ _ _ _ H1 ltac:(cbn [Framer.offset]; lia))
      as (new1 & Hn1 & Hlen1 & _ & _ & _ & _ & Hle1).
    pose proof (layer_loop_OK _ _ _ _ _ H2 ltac:(cbn [Framer.offset]; lia))
      as (new2 & Hn2 & Hlen2 & _ & _ & _ & _ & Hle2).
    cbn [Framer.layers Framer.offset] in Hn1, Hn2, Hle1, Hle2.
    assert (HL : L1 = L2).
    { rewrite Hn1, <- !app_assoc in Hn2. apply app_inv_head in Hn2.
      now injection Hn2. }
    subst L2. clear HW2 HH2 Hw2 Hh2 Hs2 Hn2 Hlen2 Hle2.
    set (o := Framer.offset st) in *.
    set (size := layer_record_size (Layer.width L1) (Layer.height L1)) in *.
    rewrite (slice_split b1 o (o + size)), (slice_split b2 o (o + size))
      by lia.
    f_equal.
    + apply (layer_record_inj re _ _ L1); try assumption;
        rewrite buffer_length_slice by lia; fold size; lia.
    + exact (IH _ _ H1 H2 ltac:(cbn [Framer.offset]; lia) Hl1 Hl2).
Qed.

(** X18.  The decoder loses nothing of a buffer that holds exactly the
    header and the layer records: two buffers of that size that decode to
    the same document under the same flag are the same bytes. *)
Theorem decoding_is_injective (b1 b2 : bytes) (reverse_endian : bool)
    (d : Document.t) :
  load_xp_string b1 reverse_endian = OK d ->
  load_xp_string b2 reverse_endian = OK d ->
  buffer_length b1 = 8 + records_size (Document.layer_data d) ->
  buffer_length b2 = 8 + records_size (Document.layer_data d) ->
  b1 = b2.
Proof.
  intros H1 H2 Hl1 Hl2.
  apply load_xp_string_OK in H1, H2.
  destruct H1 as (st1 & Eh1 & El1 & Hw1 & Hh1 & Hd1).
  destruct H2 as (st2 & Eh2 & El2 & Hw2 & Hh2 & Hd2).
  pose proof (layer_loop_records _ _ _ _ _ El1 ltac:(cbn; lia))
    as (new1 & Hn1 & Ho1 & Hpos & _).
  pose proof (layer_loop_records _ _ _ _ _ El2 ltac:(cbn; lia))
    as (new2 & Hn2 & Ho2 & _ & _).
  cbn [initial_state Framer.layers Framer.offset app] in Hn1, Hn2, Ho1, Ho2.
  assert (new1 = Document.layer_data d) by congruence.
  assert (new2 = Document.layer_data d) by congruence.
  subst new1 new2.
  pose proof (records_size_nonneg _ Hpos) as Hsize.
  assert (Hst : st1 = st2).
  { destruct st1, st2.
    cbn [Framer.offset Framer.current_largest_width
           Framer.current_largest_height Framer.layers] in *. congruence. }
  subst st2.
  rewrite Hd1 in Hl1, Hl2.
  pose proof (layer_loop_inj _ _ _ _ _ _ El1 El2) as Hbody.
  cbn [initial_state Framer.offset] in Hbody. rewrite Ho1 in Hbody.
  specialize (Hbody ltac:(lia) ltac:(lia) ltac:(lia)).
  apply load_xp_header_OK in Eh1, Eh2.
  destruct Eh1 as (_ & _ & Hv1 & Hc1), Eh2 as (_ & _ & Hv2 & Hc2).
  unfold buffer_length in Hl1, Hl2.
  rewrite <- (slice_all b1), <- (slice_all b2), Hl1, Hl2.
  rewrite (slice_split b1 0 4 _), (slice_split b2 0 4 _) by lia.
  rewrite (slice_split b1 4 8 _), (slice_split b2 4 8 _) by lia.
  rewrite Hbody. f_equal; [|f_equal].
  - apply (field_value_inj reverse_endian);
      [rewrite !length_slice; lia | congruence].
  - apply (field_value_inj reverse_endian);
      [rewrite !length_slice; lia | congruence].
Qed.

Lemma decoding_is_injective_witness :
  buffer_length (two_cell_buffer x01 x02 x03 x04)
  = 8 + records_size [two_cell_layer]
  /\ two_cell_buffer x01 x02 x03 x04 = two_cell_buffer x01 x02 x03 x04.
Proof.
  split; [reflexivity|].
  exact (decoding_is_injective (two_cell_buffer x01 x02 x03 x04)
           (two_cell_buffer x01 x02 x03 x04) true _ eq_refl eq_refl
           eq_refl eq_refl).
Defined.

(** ** The buffers on which decoding fails *)

(** An iteration that finds more than the four bytes of [width] at the
    cursor and, unless [width * height] is 0, the whole record, completes. *)
Lemma layer_iteration_fits fs re st :
  let o := Framer.offset st in
  let w := field_value re (slice fs o (o + 4)) in
  let h := field_value re (slice fs (o + 4) (o + 8)) in
  0 <= o -> o + 4 < buffer_length fs ->
  (w * h = 0 \/ o + layer_record_size w h <= buffer_length fs) ->
  exists st', layer_iteration fs re st = OK st'.
Proof.
  cbv zeta. intros Ho Hlen Hfit.
  set (o := Framer.offset st) in *.
  set (w := field_value re (slice fs o (o + 4))) in *.
  set (h := field_value re (slice fs (o + 4) (o + 8))) in *.
  assert (Hw : 0 <= w) by apply field_value_nonneg.
  assert (Hh : 0 <= h) by apply field_value_nonneg.
  pose proof (layer_record_size_min w h Hw Hh) as Hsize.
  pose proof (parse_layer_long (slice fs o (o + layer_record_size w h)) re)
    as HL.
  cbv zeta in HL. rewrite !slice_slice in HL by lia.
  rewrite Z.add_0_r in HL. fold w h in HL.
  rewrite buffer_length_slice in HL by lia.
  specialize (HL ltac:(lia)
                 ltac:(destruct Hfit as [Hz | Hfit]; [now left | right; lia])).
  eexists.
  apply (layer_iteration_long fs re st
           (Layer.mk w h
              (grid_of_record re (slice fs o (o + layer_record_size w h))
                 w h)));
    [exact Ho | exact HL].
Qed.

Lemma layer_loop_Raise n fs re : forall st e,
  layer_loop n fs re st = Raise e ->
  exists k st_k,
    (k < n)%nat
    /\ layer_loop k fs re st = OK st_k
    /\ layer_iteration fs re st_k = Raise e.
Proof.
  induction n as [|n IH]; intros st e H; [discriminate|].
  cbn [layer_loop] in H.
  destruct (layer_iteration fs re st) as [s1|e1] eqn:E1; cbn [bind] in H.
  - apply IH in H. destruct H as (k & st_k & Hk & Hrun & Hit).
    exists (S k), st_k. cbn [layer_loop]. rewrite E1. cbn [bind].
    repeat split; [lia | assumption | assumption].
  - injection H as <-. exists 0%nat, st. repeat split; [lia | assumption].
Qed.

(** Decoding fails on no other buffers than those of
    [ends_in_required_data]. *)
Lemma raises_only_when_ends_in_required_data fs re e :
  load_xp_string fs re = Raise e -> ends_in_required_data fs re.
Proof.
  intros H. destruct (Z_le_gt_dec (buffer_length fs) 4) as [Hs | Hs];
    [now left | right].
  unfold load_xp_string in H.
  pose proof (load_xp_header_long fs re ltac:(lia)) as Eh.
  rewrite Eh in H. cbn [bind] in H.
  destruct (layer_loop _ fs re (initial_state 8)) as [st | e'] eqn:El;
    [discriminate|].
  apply layer_loop_Raise in El. destruct El as (k & st_k & Hk & Hrun & Hit).
  exists k, st_k. split; [now eexists _, _, _; repeat split; eassumption|].
  cbv zeta.
  pose proof (layer_loop_OK _ _ _ _ _ Hrun ltac:(cbn; lia))
    as (_ & _ & _ & _ & _ & _ & _ & Hle).
  cbn [initial_state Framer.offset] in Hle.
  destruct (Z_le_gt_dec (buffer_length fs) (Framer.offset st_k + 4))
    as [Hc | Hc]; [now left | right].
  set (w := field_value re _). set (h := field_value re _).
  destruct (Z.eq_dec (w * h) 0) as [Hz | Hz].
  - destruct (layer_iteration_fits fs re st_k ltac:(lia) ltac:(lia)
                (or_introl Hz)) as [st' E].
    rewrite E in Hit. discriminate.
  - split; [exact Hz|].
    destruct (Z_lt_le_dec (buffer_length fs)
                (Framer.offset st_k + layer_record_size w h)) as [Hlt | Hge];
      [exact Hlt|].
    destruct (layer_iteration_fits fs re st_k ltac:(lia) ltac:(lia)
                (or_intror Hge)) as [st' E].
    rewrite E in Hit. discriminate.
Qed.
